(** * screen-capture-mcp: the capture-and-composite pipeline of [src/index.ts]

    The server is a Node program that shells out to PowerShell for the
    screen layout and for every capture, and uses the [sharp] image library
    to composite and to downscale.  The development embeds

    - the JavaScript side as functions in a state-and-exception monad
      ([getScreenLayout], [captureSingleScreen], [captureAllScreens],
      [captureWindowByTitle], [resizeImage], [take_screenshot]);
    - the two PowerShell script templates, statement by statement, as
      functions over the operating system's state ([script_run]), and the
      text of the window script as the template builds it
      ([windowScriptText]); the window script has the template's statements
      only for a title that stays inside the two literals it is spliced into
      ([title_is_data]), any other text is left to the platform
      ([mangled_script]);
    - PowerShell's cmdlets, the Win32 calls, Node's [execSync] and [sharp] as
      a record of capabilities ([Platform]).

    Screen coordinates are .NET [Int32] values printed in decimal, so the
    fields of [ScreenInfo] are integers and every sum and difference the
    program forms is exact in a JavaScript double; they are modelled in [Z].
    The values [Math.min] and [Math.max] return on an empty argument list are
    not integers, hence [jsnum]. *)

From Stdlib Require Import ZArith List String Ascii Bool Lia DecimalString.
From Stdlib Require DecimalPos DecimalZ.
Import ListNotations.
Local Open Scope Z_scope.
Local Open Scope string_scope.

(** ** JavaScript numbers, as far as the program produces them *)

Inductive jsnum : Type :=
| Num (z : Z)
| PosInf
| NegInf
| NaN.

(** [Math.min] and [Math.max] on two arguments: a [NaN] argument gives
    [NaN]. *)
Definition js_min2 (a b : jsnum) : jsnum :=
  match a, b with
  | NaN, _ | _, NaN => NaN
  | NegInf, _ | _, NegInf => NegInf
  | PosInf, c | c, PosInf => c
  | Num p, Num q => Num (Z.min p q)
  end.

Definition js_max2 (a b : jsnum) : jsnum :=
  match a, b with
  | NaN, _ | _, NaN => NaN
  | PosInf, _ | _, PosInf => PosInf
  | NegInf, c | c, NegInf => c
  | Num p, Num q => Num (Z.max p q)
  end.

(** [Math.min(...l)] is [Infinity] on no argument, [Math.max(...l)] is
    [-Infinity]. *)
Definition Math_min (l : list jsnum) : jsnum := fold_left js_min2 l PosInf.
Definition Math_max (l : list jsnum) : jsnum := fold_left js_max2 l NegInf.

(** The binary [-] of JavaScript. *)
Definition js_sub (a b : jsnum) : jsnum :=
  match a, b with
  | NaN, _ | _, NaN => NaN
  | Num p, Num q => Num (p - q)
  | PosInf, PosInf | NegInf, NegInf => NaN
  | PosInf, _ | _, NegInf => PosInf
  | NegInf, _ | _, PosInf => NegInf
  end.

(** ** Data *)

(** [interface ScreenInfo]. *)
Record ScreenInfo : Type := mkScreenInfo
  { x : Z; y : Z; width : Z; height : Z }.

(** The [RECT] struct the window script declares through [Add-Type]. *)
Record RECT : Type := mkRECT
  { Left : Z; Top : Z; Right : Z; Bottom : Z }.

(** The two properties of a [Get-Process] result the window script reads. *)
Record Process : Type := mkProcess
  { MainWindowTitle : string; MainWindowHandle : Z }.

(** The scripts [runPowerShell] is called with: the template of
    [captureSingleScreen] at a screen, and the template of
    [captureWindowByTitle] at the escaped title. *)
Inductive PSScript : Type :=
| ScreenScript (screen : ScreenInfo)
| WindowScript (safeTitle : string).

(** A child process that ran to its end: exit status 0 with its output, or
    a non-zero status with what it wrote to the error stream.  The output is
    carried as the caller reads it: the rectangles [getScreenLayout] parses
    from the lines, the bytes [runPowerShell] decodes with
    [Buffer.from(result.trim(), "base64")]. *)
Inductive ProcRun (A : Type) : Type :=
| Succeeded (stdout : A)
| Failed (code : Z) (stderr : string).
Arguments Succeeded {A} _.
Arguments Failed {A} _ _.

(** What a JavaScript [catch] can receive here. *)
Inductive Error : Type :=
| ExecFailed (code : Z) (err : string)  (* execSync: the child exited non-zero *)
| ExecTimedOut (ms : Z)                 (* execSync: the child was killed at the timeout *)
| SharpError (msg : string).            (* a rejected sharp promise *)

Inductive Res (A : Type) : Type :=
| Ok (a : A)
| Err (e : Error).
Arguments Ok {A} _.
Arguments Err {A} _.

(** The fields of sharp's metadata object the program reads; [width] is
    optional in sharp's typing. *)
Record Metadata : Type := mkMetadata { md_width : option Z }.

(** ** The platform *)

Record Platform : Type := mkPlatform
  { World : Type;
    Buffer : Type;
    (* -- child processes -- *)
    (** time in ms the next [powershell] child needs when left alone;
        [None]: it never exits *)
    run_time : World -> option Z;
    (** the state a child killed at its timeout leaves behind *)
    killed : World -> World;
    (** the [Screen]::AllScreens one-liner of [getScreenLayout], with the
        lines of its output already read as rectangles *)
    AllScreens : World -> ProcRun (list ScreenInfo) * World;
    (* -- PowerShell and Win32, as the scripts use them -- *)
    Get_Process : World -> list Process;
    (** the [-like] operator: value, then wildcard pattern *)
    like : string -> string -> bool;
    (** the rectangle [GetWindowRect] leaves in its out parameter *)
    GetWindowRect : World -> Z -> RECT;
    (** allocate a bitmap of the given width and height, [CopyFromScreen] at
        the given corner, save as PNG, print base64: the tail both scripts
        share, to the end of the child.  Arguments: corner x, corner y,
        width, height. *)
    CopyFromScreen : Z -> Z -> Z -> Z -> World -> ProcRun Buffer * World;
    (** what PowerShell does with the text of a window script in which the
        title did not stay inside its literals: statements of the title's
        making, not the template's *)
    mangled_script : string -> World -> ProcRun Buffer * World;
    (* -- sharp -- *)
    (** [sharp(buf).metadata()] *)
    sharp_metadata : Buffer -> Res Metadata;
    (** [sharp(buf).resize({ width, withoutEnlargement: true }).png().toBuffer()] *)
    sharp_resize_png : Buffer -> Z -> Res Buffer;
    (** [sharp({ create: { width, height, channels: 4, background } })
         .composite(layers).png().toBuffer()]; a layer is (input, left, top) *)
    sharp_composite_png : jsnum -> jsnum -> list (Buffer * jsnum * jsnum) -> Res Buffer }.

(** ** Strings the window script is built from

    A character stands for one UTF-16 code unit below 256.  PowerShell also
    reads U+2018 to U+201B as apostrophes and U+201C to U+201E as double
    quotes; [replace_squote] leaves them alone like every other character,
    and they lie outside this type. *)

Definition squote : ascii := ascii_of_nat 39.
Definition dquote : ascii := ascii_of_nat 34.
Definition backtick : ascii := ascii_of_nat 96.
Definition dq : string := String dquote EmptyString.

(** [title.replace(/'/g, "''")]: every apostrophe is doubled. *)
Fixpoint replace_squote (title : string) : string :=
  match title with
  | EmptyString => EmptyString
  | String c rest =>
      if Ascii.eqb c squote
      then String squote (String squote (replace_squote rest))
      else String c (replace_squote rest)
  end.

(** The value PowerShell gives the body of a single-quoted literal: a
    doubled apostrophe stands for one. *)
Fixpoint sq_value (body : string) : string :=
  match body with
  | String a (String b rest as tl) =>
      if Ascii.eqb a squote && Ascii.eqb b squote
      then String squote (sq_value rest)
      else String a (sq_value tl)
  | _ => body
  end.

(** The text [captureWindowByTitle] hands to [runPowerShell], as the template
    literal builds it from [safeTitle]; the title is spliced in twice, into
    the single-quoted [-like] pattern and into the double-quoted message of
    [Write-Error]. *)
Definition script_head : string :=
"
Add-Type -AssemblyName System.Drawing

Add-Type @'
using System;
using System.Runtime.InteropServices;
public class Win32 {
    [DllImport(" ++ dq ++ "user32.dll" ++ dq ++ ")]
    public static extern bool GetWindowRect(IntPtr hWnd, out RECT lpRect);
}
public struct RECT {
    public int Left; public int Top; public int Right; public int Bottom;
}
'@

$proc = Get-Process | Where-Object { $_.MainWindowTitle -like ".

Definition script_filter_rest : string :=
" -and $_.MainWindowHandle -ne 0 } | Select-Object -First 1
if (-not $proc) { Write-Error ".

Definition script_tail : string :=
"; exit 1 }

$hwnd = $proc.MainWindowHandle
$rect = New-Object RECT
[Win32]::GetWindowRect($hwnd, [ref]$rect) | Out-Null

$width = $rect.Right - $rect.Left
$height = $rect.Bottom - $rect.Top

if ($width -le 0 -or $height -le 0) { Write-Error " ++ dq ++ "Invalid window dimensions" ++ dq ++ "; exit 1 }

$bmp = New-Object System.Drawing.Bitmap($width, $height)
$graphics = [System.Drawing.Graphics]::FromImage($bmp)
$graphics.CopyFromScreen($rect.Left, $rect.Top, 0, 0, (New-Object System.Drawing.Size($width, $height)))
$graphics.Dispose()

$ms = New-Object System.IO.MemoryStream
$bmp.Save($ms, [System.Drawing.Imaging.ImageFormat]::Png)
$bmp.Dispose()

[Convert]::ToBase64String($ms.ToArray())
$ms.Dispose()
".

(** The text from the body of the message literal to the end of the script:
    what PowerShell reads after the opening quote of the [Write-Error]
    argument. *)
Definition message_onwards (safeTitle : string) : string :=
  "Window not found: " ++ safeTitle ++ dq ++ script_tail.

(** The text from the body of the pattern literal on. *)
Definition pattern_onwards (safeTitle : string) : string :=
  "*" ++ safeTitle ++ "*" ++ String squote EmptyString
  ++ script_filter_rest ++ dq ++ message_onwards safeTitle.

Definition windowScriptText (safeTitle : string) : string :=
  script_head ++ String squote EmptyString ++ pattern_onwards safeTitle.

(** An integer spliced into a template literal: its decimal digits, with a
    minus sign when negative. *)
Definition js_string_of_int (z : Z) : string :=
  NilZero.string_of_int (Z.to_int z).

(** The text [captureSingleScreen] hands to [runPowerShell]. *)
Definition screenScriptText (screen : ScreenInfo) : string :=
"
Add-Type -AssemblyName System.Drawing

$bmp = New-Object System.Drawing.Bitmap(" ++ js_string_of_int (width screen)
++ ", " ++ js_string_of_int (height screen) ++ ")
$graphics = [System.Drawing.Graphics]::FromImage($bmp)
$graphics.CopyFromScreen(" ++ js_string_of_int (x screen)
++ ", " ++ js_string_of_int (y screen)
++ ", 0, 0, (New-Object System.Drawing.Size(" ++ js_string_of_int (width screen)
++ ", " ++ js_string_of_int (height screen) ++ ")))
$graphics.Dispose()

$ms = New-Object System.IO.MemoryStream
$bmp.Save($ms, [System.Drawing.Imaging.ImageFormat]::Png)
$bmp.Dispose()

[Convert]::ToBase64String($ms.ToArray())
$ms.Dispose()
".

(** The text of a script.  [runPowerShell] passes it to [powershell] as
    base64 of its UTF-16 encoding behind [-EncodedCommand], so PowerShell
    reads exactly this text. *)
Definition script_text (script : PSScript) : string :=
  match script with
  | ScreenScript screen => screenScriptText screen
  | WindowScript safeTitle => windowScriptText safeTitle
  end.

(** *** PowerShell's quoting rules (about_Quoting_Rules)

    Both scanners start right after the opening quote and return the
    literal's value and the text that follows its closing quote. *)

(** Single-quoted: nothing is special but the apostrophe; two in a row stand
    for one, a single one ends the literal. *)
Fixpoint scan_sq (s : string) : option (string * string) :=
  match s with
  | EmptyString => None
  | String c rest =>
      if Ascii.eqb c squote then
        match rest with
        | String c2 rest2 =>
            if Ascii.eqb c2 squote then
              match scan_sq rest2 with
              | Some (v, after) => Some (String squote v, after)
              | None => None
              end
            else Some (EmptyString, rest)
        | EmptyString => Some (EmptyString, rest)
        end
      else
        match scan_sq rest with
        | Some (v, after) => Some (String c v, after)
        | None => None
        end
  end.

(** Double-quoted: two double quotes in a row stand for one, a backtick
    escapes the next character, a single double quote ends the literal.  A
    [$(] opens a subexpression with its own nesting, which the scanner does
    not follow: it answers [None] there, as on an unterminated literal. *)
Fixpoint scan_dq (s : string) : option (string * string) :=
  match s with
  | EmptyString => None
  | String c rest =>
      if Ascii.eqb c dquote then
        match rest with
        | String c2 rest2 =>
            if Ascii.eqb c2 dquote then
              match scan_dq rest2 with
              | Some (v, after) => Some (String dquote v, after)
              | None => None
              end
            else Some (EmptyString, rest)
        | EmptyString => Some (EmptyString, rest)
        end
      else if Ascii.eqb c backtick then
        match rest with
        | String c2 rest2 =>
            match scan_dq rest2 with
            | Some (v, after) => Some (String c2 v, after)
            | None => None
            end
        | EmptyString => None
        end
      else if Ascii.eqb c (ascii_of_nat 36) then
        match rest with
        | String c2 _ =>
            if Ascii.eqb c2 (ascii_of_nat 40) then None
            else
              match scan_dq rest with
              | Some (v, after) => Some (String c v, after)
              | None => None
              end
        | EmptyString => None
        end
      else
        match scan_dq rest with
        | Some (v, after) => Some (String c v, after)
        | None => None
        end
  end.

(** Every character of [s] passes the test. *)
Fixpoint all_chars (test : ascii -> bool) (s : string) : bool :=
  match s with
  | EmptyString => true
  | String c rest => test c && all_chars test rest
  end.

(** A character that means nothing special inside a double-quoted literal:
    not the double quote, not the backtick, not the dollar sign. *)
Definition dq_plain (c : ascii) : bool :=
  negb (Ascii.eqb c dquote) && negb (Ascii.eqb c backtick)
  && negb (Ascii.eqb c (ascii_of_nat 36)).

(** The title stays what the template takes it for, data inside two
    literals: it holds none of the characters that are special in a
    double-quoted literal, and the single-quoted pattern literal ends at the
    apostrophe the template closes it with.  (The typographic quotes that
    PowerShell reads like the plain ones lie outside the string type.) *)
Definition title_is_data (safeTitle : string) : bool :=
  all_chars dq_plain safeTitle
  && match scan_sq (pattern_onwards safeTitle) with
     | Some (_, after) =>
         String.eqb after (script_filter_rest ++ dq ++ message_onwards safeTitle)
     | None => false
     end.

(** How a JavaScript call can end: with a value, with an exception, or
    never. *)
Inductive Outcome (A : Type) : Type :=
| Return (a : A)
| Throw (e : Error)
| Hang.
Arguments Return {A} _.
Arguments Throw {A} _.
Arguments Hang {A}.

(** ** The PowerShell scripts, statement by statement *)

Section Scripts.
Variable P : Platform.

(** The script of [captureSingleScreen]: a bitmap of the screen's size,
    filled from the screen's corner, printed as base64 PNG. *)
Definition screen_script (screen : ScreenInfo)
  : World P -> ProcRun (Buffer P) * World P :=
  CopyFromScreen P (x screen) (y screen) (width screen) (height screen).

(** The script of [captureWindowByTitle].  When the title stays inside the
    two literals it is spliced into, it is data: the pattern is the value of
    the literal ['*${safeTitle}*'], and the message of the first
    [Write-Error] carries [safeTitle] as spliced.  [Write-Error] does not
    stop a script, [exit 1] does.  A title that leaves a literal changes the
    statements themselves; what runs then is the platform's to say. *)
Definition window_script (safeTitle : string)
  : World P -> ProcRun (Buffer P) * World P :=
  fun w =>
    if title_is_data safeTitle then
      let pattern := sq_value ("*" ++ safeTitle ++ "*") in
      let proc :=
        find (fun p => like P (MainWindowTitle p) pattern
                       && negb (MainWindowHandle p =? 0)%Z)
             (Get_Process P w) in
      match proc with
      | None =>
          (Failed 1 ("Window not found: " ++ safeTitle), w)
      | Some proc =>
          let hwnd := MainWindowHandle proc in
          let rect := GetWindowRect P w hwnd in
          let width := Right rect - Left rect in
          let height := Bottom rect - Top rect in
          if (width <=? 0)%Z || (height <=? 0)%Z
          then (Failed 1 "Invalid window dimensions", w)
          else CopyFromScreen P (Left rect) (Top rect) width height w
      end
    else mangled_script P (windowScriptText safeTitle) w.

Definition script_run (script : PSScript)
  : World P -> ProcRun (Buffer P) * World P :=
  match script with
  | ScreenScript screen => screen_script screen
  | WindowScript safeTitle => window_script safeTitle
  end.

(** ** The Node side *)

(** One entry of the array handed to [.composite]. *)
Record Layer : Type := mkLayer
  { input : Buffer P; left : jsnum; top : jsnum }.

(** What the program asks of the platform, in order. *)
Inductive Event : Type :=
| EvGetScreenLayout
| EvRunPowerShell (script : PSScript)
| EvSharpMetadata (buf : Buffer P)
| EvSharpResizePng (buf : Buffer P) (targetWidth : Z)
| EvSharpCompositePng (totalWidth totalHeight : jsnum) (layers : list Layer).

(** The state a request runs in: the operating system, a clock in
    milliseconds, and the calls made so far, newest first. *)
Record State : Type := mkState
  { world : World P; clock : Z; log : list Event }.

Definition M (A : Type) : Type := State -> Outcome A * State.

Definition ret {A} (a : A) : M A := fun st => (Return a, st).

Definition bind {A B} (m : M A) (f : A -> M B) : M B :=
  fun st =>
    match m st with
    | (Return a, st') => f a st'
    | (Throw e, st') => (Throw e, st')
    | (Hang, st') => (Hang, st')
    end.

(** [try { m } catch (error) { h error }]. *)
Definition try_catch {A} (m : M A) (h : Error -> M A) : M A :=
  fun st =>
    match m st with
    | (Throw e, st') => h e st'
    | r => r
    end.

Definition emit (e : Event) : M unit :=
  fun st => (Return tt, mkState (world st) (clock st) (e :: log st)).

(** An awaited promise of sharp: a rejection is thrown. *)
Definition await {A} (r : Res A) : M A :=
  fun st => match r with Ok a => (Return a, st) | Err e => (Throw e, st) end.

(** [items.map(f)] with a callback that can throw: the callback runs on the
    elements in index order, and the first exception leaves the loop. *)
Fixpoint mapM {A B} (f : A -> M B) (items : list A) : M (list B) :=
  match items with
  | [] => ret []
  | a :: rest =>
      bind (f a) (fun b =>
      bind (mapM f rest) (fun bs =>
      ret (b :: bs)))
  end.

(** [execSync(command, { timeout })]: the child runs to its end if it needs
    no more than the timeout, and a non-zero exit status is thrown; a child
    that needs longer is killed when the timeout expires and that is thrown.
    Without a timeout a child that never exits is waited for forever.  (A
    child stopped for exceeding [maxBuffer] counts as a failed one.) *)
Definition execSync {A} (child : World P -> ProcRun A * World P)
           (timeout : option Z) : M A :=
  fun st =>
    let finish (d : Z) :=
      let '(r, w') := child (world st) in
      let st' := mkState w' (clock st + d) (log st) in
      match r with
      | Succeeded result => (Return result, st')
      | Failed code err => (Throw (ExecFailed code err), st')
      end in
    let expire (t : Z) :=
      (Throw (ExecTimedOut t),
       mkState (killed P (world st)) (clock st + t) (log st)) in
    match run_time P (world st), timeout with
    | Some d, Some t => if (d <=? t)%Z then finish d else expire t
    | Some d, None => finish d
    | None, Some t => expire t
    | None, None => (Hang, st)
    end.

Definition runPowerShell (script : PSScript) : M (Buffer P) :=
  bind (emit (EvRunPowerShell script)) (fun _ =>
  execSync (script_run script) (Some 15000)).

Definition getScreenLayout : M (list ScreenInfo) :=
  bind (emit EvGetScreenLayout) (fun _ =>
  execSync (AllScreens P) (Some 10000)).

Definition captureSingleScreen (screen : ScreenInfo) : M (Buffer P) :=
  runPowerShell (ScreenScript screen).

(** The callback of [screens.map] in [captureAllScreens]: the capture comes
    first, as the object literal lists [input] first. *)
Definition capture_at (minX minY : jsnum) (screen : ScreenInfo) : M Layer :=
  bind (captureSingleScreen screen) (fun buf =>
  ret (mkLayer buf (js_sub (Num (x screen)) minX)
                   (js_sub (Num (y screen)) minY))).

Definition sharp_layer (c : Layer) : Buffer P * jsnum * jsnum :=
  (input c, left c, top c).

Definition captureAllScreens : M (Buffer P) :=
  bind getScreenLayout (fun screens =>
  match screens with
  | [screen0] => captureSingleScreen screen0
  | _ =>
      let minX := Math_min (map (fun s => Num (x s)) screens) in
      let minY := Math_min (map (fun s => Num (y s)) screens) in
      let maxX := Math_max (map (fun s => Num (x s + width s)) screens) in
      let maxY := Math_max (map (fun s => Num (y s + height s)) screens) in
      let totalWidth := js_sub maxX minX in
      let totalHeight := js_sub maxY minY in
      bind (mapM (capture_at minX minY) screens) (fun captures =>
      bind (emit (EvSharpCompositePng totalWidth totalHeight captures)) (fun _ =>
      await (sharp_composite_png P totalWidth totalHeight
                                 (map sharp_layer captures))))
  end).

Definition captureWindowByTitle (title : string) : M (Buffer P) :=
  let safeTitle := replace_squote title in
  runPowerShell (WindowScript safeTitle).

(** [metadata.width && metadata.width > targetWidth]: an absent width and a
    width of 0 are falsy. *)
Definition too_wide (md : Metadata) (targetWidth : Z) : bool :=
  match md_width md with
  | Some w => negb (w =? 0)%Z && (targetWidth <? w)%Z
  | None => false
  end.

Definition resizeImage (pngBuffer : Buffer P) (targetWidth : Z) : M (Buffer P) :=
  bind (emit (EvSharpMetadata pngBuffer)) (fun _ =>
  bind (await (sharp_metadata P pngBuffer)) (fun metadata =>
  if too_wide metadata targetWidth then
    bind (emit (EvSharpResizePng pngBuffer targetWidth)) (fun _ =>
    await (sharp_resize_png P pngBuffer targetWidth))
  else ret pngBuffer)).

(** The default of [resizeImage]'s second parameter. *)
Definition default_targetWidth : Z := 2560.

(** The tool's answer: the image (its bytes, sent as base64, and the mime
    type), or the error whose message follows [Screenshot failed: ], with
    [isError] set. *)
Inductive Response : Type :=
| ImageContent (data : Buffer P) (mimeType : string)
| ErrorText (error : Error).

(** The handler of the [take_screenshot] tool; [window_title] is an optional
    string, and [if (window_title)] holds for a present, non-empty one. *)
Definition take_screenshot (window_title : option string) : M Response :=
  try_catch
    (bind (match window_title with
           | Some (String _ _ as title) => captureWindowByTitle title
           | _ => captureAllScreens
           end) (fun pngBuffer =>
     bind (resizeImage pngBuffer default_targetWidth) (fun pngBuffer =>
     ret (ImageContent pngBuffer "image/png"))))
    (fun error => ret (ErrorText error)).

(** A fresh request. *)
Definition start (w : World P) : State := mkState w 0 [].

End Scripts.

Arguments mkLayer {P} _ _ _.
Arguments input {P} _.
Arguments left {P} _.
Arguments top {P} _.
Arguments EvGetScreenLayout {P}.
Arguments EvRunPowerShell {P} _.
Arguments EvSharpMetadata {P} _.
Arguments EvSharpResizePng {P} _ _.
Arguments EvSharpCompositePng {P} _ _ _.
Arguments mkState {P} _ _ _.
Arguments world {P} _.
Arguments clock {P} _.
Arguments log {P} _.
Arguments ImageContent {P} _ _.
Arguments ErrorText {P} _.

(** The event a capture of a screen leaves in the log. *)
Definition capture_event (P : Platform) (s : ScreenInfo) : Event P :=
  EvRunPowerShell (ScreenScript s).

(** Where layer [c] of screen [s] is placed, as the program computes it. *)
Definition placed {P : Platform} (minX minY : jsnum) (s : ScreenInfo)
           (c : Layer P) : Prop :=
  left c = js_sub (Num (x s)) minX /\ top c = js_sub (Num (y s)) minY.

(** Screen [s] was captured, or its capture was at least started, in the
    run that ended in [st]. *)
Definition attempted {P : Platform} (s : ScreenInfo) (st : State P) : Prop :=
  In (capture_event P s) (log st).

(** Failure isolation as the specification words it, for the request made
    in world [w]: when the screens before [s] were captured and the capture
    of [s] throws, the capture of the screen after [s] is still attempted. *)
Definition failure_isolated (P : Platform) (w : World P) : Prop :=
  forall (screens pre post : list ScreenInfo) (s next : ScreenInfo)
         (st1 sti sti' : State P) (done : list (Buffer P)) (e : Error),
    getScreenLayout P (start P w) = (Return screens, st1) ->
    screens = (pre ++ s :: next :: post)%list ->
    mapM P (captureSingleScreen P) pre st1 = (Return done, sti) ->
    captureSingleScreen P s sti = (Throw e, sti') ->
    attempted next (snd (captureAllScreens P (start P w))).

(** A PNG encoding step of the normalizer is among the calls that led to
    [st]; the normalizer's only encoder is the [.png()] of its resize
    pipeline. *)
Definition reencoded {P : Platform} (st : State P) : Prop :=
  exists buf targetWidth, In (EvSharpResizePng buf targetWidth) (log st).

(** The normalizer re-encodes [buf] whenever it returns. *)
Definition always_reencodes (P : Platform) (buf : Buffer P) (w : World P) : Prop :=
  forall out st',
    resizeImage P buf default_targetWidth (start P w) = (Return out, st') ->
    reencoded st'.


(** [st'] continues the log of [st] with calls that all satisfy [Q]. *)
Definition grows {P : Platform} (Q : Event P -> Prop) (st st' : State P) : Prop :=
  exists evs, log st' = (evs ++ log st)%list /\ Forall Q evs.

(** A title with a double quote on either side of a command. *)
Definition injecting_title : string := dq ++ ";calc;" ++ dq.

(** The message literal of the window script ends where the template closes
    it, so that the text after it is the template's own. *)
Definition message_literal_intact (safeTitle : string) : Prop :=
  exists value, scan_dq (message_onwards safeTitle) = Some (value, script_tail).

(** ** What the program relies on sharp for

    sharp's [resize] to a width, applied to a wider image, gives an image of
    that width. *)
Definition resize_to_width (P : Platform) : Prop :=
  forall (buf out : Buffer P) (targetWidth w : Z),
    sharp_metadata P buf = Ok (mkMetadata (Some w)) ->
    targetWidth < w ->
    sharp_resize_png P buf targetWidth = Ok out ->
    sharp_metadata P out = Ok (mkMetadata (Some targetWidth)).

(** ** Bounds of a list of integers *)

Definition is_min (m : Z) (l : list Z) : Prop :=
  In m l /\ forall v, In v l -> m <= v.

Definition is_max (m : Z) (l : list Z) : Prop :=
  In m l /\ forall v, In v l -> v <= m.

(** ** A platform to run the program on

    Displays and windows are listed in the world; every child takes the next
    entry of a schedule of running times (100 ms once the schedule is used
    up); pictures are their format and size. *)

Module Sim.

Inductive Format : Type := PNG | JPEG.

Record Picture : Type := mkPicture
  { format : Format; pic_width : Z; pic_height : Z }.

Record SimWorld : Type := mkSimWorld
  { sim_screens : list ScreenInfo;
    sim_windows : list (Process * RECT);
    sim_times : list (option Z) }.

Definition next_time (w : SimWorld) : option Z :=
  match sim_times w with
  | [] => Some 100
  | t :: _ => t
  end.

Definition step (w : SimWorld) : SimWorld :=
  mkSimWorld (sim_screens w) (sim_windows w) (tl (sim_times w)).

Definition lower (c : ascii) : ascii :=
  let n := nat_of_ascii c in
  if (Nat.leb 65 n && Nat.leb n 90)%bool then ascii_of_nat (n + 32) else c.

(** Wildcard matching as about_Wildcards describes it, without character
    classes: [*] stands for any run of characters, [?] for any one, letters
    match in either case. *)
Fixpoint wildcard (pattern : string) : string -> bool :=
  match pattern with
  | EmptyString =>
      fun s => match s with EmptyString => true | String _ _ => false end
  | String c rest =>
      if Ascii.eqb c "*"%char then
        fix star (s : string) : bool :=
          wildcard rest s
          || match s with
             | EmptyString => false
             | String _ s' => star s'
             end
      else if Ascii.eqb c "?"%char then
        fun s => match s with
                 | EmptyString => false
                 | String _ s' => wildcard rest s'
                 end
      else
        fun s => match s with
                 | EmptyString => false
                 | String d s' => Ascii.eqb (lower c) (lower d) && wildcard rest s'
                 end
  end.

Definition window_rect (w : SimWorld) (hwnd : Z) : RECT :=
  match find (fun pr => (MainWindowHandle (fst pr) =? hwnd)%Z) (sim_windows w) with
  | Some (_, r) => r
  | None => mkRECT 0 0 0 0
  end.

(** sharp scales the height by the same factor, rounded to the nearest
    pixel; it rejects a width that is not positive. *)
Definition resize_png (buf : Picture) (targetWidth : Z) : Res Picture :=
  if (targetWidth <=? 0)%Z then Err (SharpError "Expected positive integer for width")
  else if (pic_width buf <=? targetWidth)%Z
       then Ok (mkPicture PNG (pic_width buf) (pic_height buf))
       else Ok (mkPicture PNG targetWidth
                  ((2 * pic_height buf * targetWidth + pic_width buf)
                   / (2 * pic_width buf))).

Definition composite_png (totalWidth totalHeight : jsnum)
           (layers : list (Picture * jsnum * jsnum)) : Res Picture :=
  match totalWidth, totalHeight with
  | Num w, Num h =>
      if ((0 <? w) && (0 <? h))%Z then Ok (mkPicture PNG w h)
      else Err (SharpError "Expected positive integer for create")
  | _, _ => Err (SharpError "Expected positive integer for create")
  end.

Definition platform : Platform :=
  {| World := SimWorld;
     Buffer := Picture;
     run_time := next_time;
     killed := step;
     AllScreens := fun w => (Succeeded (sim_screens w), step w);
     Get_Process := fun w => map fst (sim_windows w);
     like := fun value pattern => wildcard pattern value;
     GetWindowRect := window_rect;
     CopyFromScreen := fun _ _ w h world => (Succeeded (mkPicture PNG w h), step world);
     mangled_script := fun _ world => (Failed 1 "ParserError", step world);
     sharp_metadata := fun buf => Ok (mkMetadata (Some (pic_width buf)));
     sharp_resize_png := resize_png;
     sharp_composite_png := composite_png |}.

(** Two monitors side by side, the left one at negative coordinates. *)
Definition left_monitor : ScreenInfo := mkScreenInfo (-1920) 0 1920 1080.
Definition main_monitor : ScreenInfo := mkScreenInfo 0 0 2560 1440.
Definition third_monitor : ScreenInfo := mkScreenInfo 2560 0 1920 1080.

Definition notepad : Process * RECT :=
  (mkProcess "Untitled - Notepad" 4711, mkRECT 100 100 900 700).
(** A minimized window: Windows parks it at -32000 with no extent. *)
Definition minimized : Process * RECT :=
  (mkProcess "Calculator" 4712, mkRECT (-32000) (-32000) (-32000) (-32000)).

Definition two_monitors : SimWorld :=
  mkSimWorld [left_monitor; main_monitor] [notepad; minimized] [].

Definition one_monitor : SimWorld :=
  mkSimWorld [main_monitor] [notepad; minimized] [].

(** Three monitors; the layout query takes 80 ms, the first capture 120 ms,
    and the second capture never comes back. *)
Definition second_capture_stalls : SimWorld :=
  mkSimWorld [left_monitor; main_monitor; third_monitor] [notepad]
             [Some 80; Some 120; None].

End Sim.

(** ** The output of the layout query, as [getScreenLayout] reads it

    [result.trim().split(/\r?\n/).map(line => line.split(",").map(Number))],
    with the first four numbers of a line taken as [x], [y], [width] and
    [height]. *)

Definition lf : ascii := ascii_of_nat 10.
Definition cr : ascii := ascii_of_nat 13.
Definition LF : string := String lf EmptyString.
Definition CRLF : string := String cr (String lf EmptyString).

(** The white space and line terminators of JavaScript among the code units
    below 256: tab, line feed, vertical tab, form feed, carriage return,
    space and no-break space. *)
Definition is_js_space (c : ascii) : bool :=
  existsb (Nat.eqb (nat_of_ascii c)) [9; 10; 11; 12; 13; 32; 160]%nat.

Fixpoint trimStart (s : string) : string :=
  match s with
  | EmptyString => EmptyString
  | String c rest => if is_js_space c then trimStart rest else s
  end.

Fixpoint trimEnd (s : string) : string :=
  match s with
  | EmptyString => EmptyString
  | String c rest =>
      match trimEnd rest with
      | EmptyString => if is_js_space c then EmptyString else String c EmptyString
      | kept => String c kept
      end
  end.

(** [s.trim()]. *)
Definition js_trim (s : string) : string := trimEnd (trimStart s).

(** One more character in front of the first piece. *)
Definition push_char (c : ascii) (pieces : list string) : list string :=
  match pieces with
  | piece :: rest => String c piece :: rest
  | [] => [String c EmptyString]
  end.

(** [s.split(/\r?\n/)]: a line feed, with the carriage return right before
    it if there is one, ends a piece; a carriage return on its own does not.
    The empty string gives one empty piece. *)
Fixpoint split_lines (s : string) : list string :=
  match s with
  | EmptyString => [EmptyString]
  | String c rest =>
      if Ascii.eqb c lf then EmptyString :: split_lines rest
      else if Ascii.eqb c cr then
        match rest with
        | String c2 rest2 =>
            if Ascii.eqb c2 lf then EmptyString :: split_lines rest2
            else push_char c (split_lines rest)
        | EmptyString => push_char c (split_lines rest)
        end
      else push_char c (split_lines rest)
  end.

(** [s.split(",")]. *)
Fixpoint split_comma (s : string) : list string :=
  match s with
  | EmptyString => [EmptyString]
  | String c rest =>
      if Ascii.eqb c ","%char then EmptyString :: split_comma rest
      else push_char c (split_comma rest)
  end.

(** What [Number] makes of a string, and what a destructured array gives
    for a missing element.  [JsUnread text] is [Number(text)] left as it is:
    a value this development does not compute (a fraction, an exponent, a
    hexadecimal literal, [-0], an integer beyond 2^53, an infinity or
    [NaN]). *)
Inductive jsvalue : Type :=
| JsInt (z : Z)
| JsUnread (text : string)
| JsUndefined.

(** Up to 2^53 in absolute value every integer is a double. *)
Definition max_safe : Z := 9007199254740992.

(** [Number(s)] on a string: white space around the text is dropped, the
    empty text is 0, and a run of decimal digits behind an optional sign is
    the integer it writes. *)
Definition Number (s : string) : jsvalue :=
  match js_trim s with
  | EmptyString => JsInt 0
  | String c rest as text =>
      let value :=
        if Ascii.eqb c "+"%char
        then option_map Z.of_uint (NilZero.uint_of_string rest)
        else option_map Z.of_int (NilZero.int_of_string text) in
      match value with
      | Some z =>
          if (Z.abs z <=? max_safe)%Z
             && negb (Ascii.eqb c "-"%char && (z =? 0)%Z)
          then JsInt z
          else JsUnread s
      | None => JsUnread s
      end
  end.

(** The object [getScreenLayout] builds from a line, before TypeScript
    calls it a [ScreenInfo]. *)
Record RawScreenInfo : Type := mkRawScreenInfo
  { raw_x : jsvalue; raw_y : jsvalue; raw_width : jsvalue; raw_height : jsvalue }.

(** The callback of [.map] over the lines: [const [x, y, width, height] =
    line.split(",").map(Number)]. *)
Definition parse_line (line : string) : RawScreenInfo :=
  let fields := map Number (split_comma line) in
  mkRawScreenInfo (nth 0 fields JsUndefined) (nth 1 fields JsUndefined)
                  (nth 2 fields JsUndefined) (nth 3 fields JsUndefined).

Definition parseLayout (result : string) : list RawScreenInfo :=
  map parse_line (split_lines (js_trim result)).

(** A raw screen whose four fields are integers is the [ScreenInfo] the
    rest of the program computes with. *)
Definition read_screen (r : RawScreenInfo) : option ScreenInfo :=
  match r with
  | mkRawScreenInfo (JsInt a) (JsInt b) (JsInt c) (JsInt d) =>
      Some (mkScreenInfo a b c d)
  | _ => None
  end.

(** What the one-liner of [getScreenLayout] prints for a screen:
    [('' + X + ',' + Y + ',' + Width + ',' + Height)]. *)
Definition layout_line (s : ScreenInfo) : string :=
  js_string_of_int (x s) ++ "," ++ js_string_of_int (y s) ++ ","
  ++ js_string_of_int (width s) ++ "," ++ js_string_of_int (height s).

(** What it prints for all screens: [Write-Output] ends each line with
    [eol]. *)
Fixpoint layout_output (eol : string) (screens : list ScreenInfo) : string :=
  match screens with
  | [] => EmptyString
  | s :: rest => layout_line s ++ eol ++ layout_output eol rest
  end.

(** The four numbers of a screen are exact as doubles. *)
Definition safe_screen (s : ScreenInfo) : Prop :=
  Z.abs (x s) <= max_safe /\ Z.abs (y s) <= max_safe
  /\ Z.abs (width s) <= max_safe /\ Z.abs (height s) <= max_safe.

(** A digit or the minus sign. *)
Definition is_int_char (c : ascii) : bool :=
  Ascii.eqb c "-"%char
  || (Nat.leb 48 (nat_of_ascii c) && Nat.leb (nat_of_ascii c) 57).

(** The printed lines with [eol] between them and none at the end. *)
Fixpoint layout_joined (eol : string) (screens : list ScreenInfo) : string :=
  match screens with
  | [] => EmptyString
  | [s] => layout_line s
  | s :: rest => layout_line s ++ eol ++ layout_joined eol rest
  end.

(** The raw screen of four integers. *)
Definition raw_screen (s : ScreenInfo) : RawScreenInfo :=
  mkRawScreenInfo (JsInt (x s)) (JsInt (y s)) (JsInt (width s)) (JsInt (height s)).

(** What [getScreenLayout] makes of an output without any text. *)
Definition phantom_screen : RawScreenInfo :=
  mkRawScreenInfo (JsInt 0) JsUndefined JsUndefined JsUndefined.

(** A character of a printed line: a digit, the minus sign or the comma. *)
Definition is_line_char (c : ascii) : bool :=
  is_int_char c || Ascii.eqb c ","%char.

(** The string does not begin with a double quote and is not empty. *)
Definition starts_unquoted (s : string) : Prop :=
  match s with
  | EmptyString => False
  | String c _ => Ascii.eqb c dquote = false
  end.

(** A call of the normalizer: a metadata or a resize request to sharp. *)
Definition normalizer_call {P : Platform} (ev : Event P) : Prop :=
  (exists buf, ev = EvSharpMetadata buf)
  \/ (exists buf targetWidth, ev = EvSharpResizePng buf targetWidth).

(** ** The command line of [runPowerShell] and the bytes it gets back

    [Buffer.from(script, "utf16le").toString("base64")] on the way in,
    [Buffer.from(result.trim(), "base64")] on the way back.  A byte is an
    [ascii]; its constructor lists the bits from the least significant. *)

(** UTF-16, little endian, of code units below 256: the unit, then a zero
    byte. *)
Fixpoint utf16le (s : string) : list ascii :=
  match s with
  | EmptyString => []
  | String c rest => c :: zero :: utf16le rest
  end.

Definition base64_alphabet : string :=
  "ABCDEFGHIJKLMNOPQRSTUVWXYZabcdefghijklmnopqrstuvwxyz0123456789+/".

(** Six bits, most significant first, as a number below 64. *)
Definition six (b5 b4 b3 b2 b1 b0 : bool) : ascii :=
  Ascii b0 b1 b2 b3 b4 b5 false false.

(** The base64 digit of a number below 64. *)
Definition sextet_char (s : ascii) : ascii :=
  match get (nat_of_ascii s) base64_alphabet with
  | Some c => c
  | None => "="%char
  end.

(** [buf.toString("base64")]: three bytes give four digits; one or two
    bytes left over give two or three digits and padding. *)
Fixpoint base64 (bytes : list ascii) : string :=
  match bytes with
  | [] => EmptyString
  | [Ascii a0 a1 a2 a3 a4 a5 a6 a7] =>
      String (sextet_char (six a7 a6 a5 a4 a3 a2))
     (String (sextet_char (six a1 a0 false false false false)) "==")
  | [Ascii a0 a1 a2 a3 a4 a5 a6 a7; Ascii b0 b1 b2 b3 b4 b5 b6 b7] =>
      String (sextet_char (six a7 a6 a5 a4 a3 a2))
     (String (sextet_char (six a1 a0 b7 b6 b5 b4))
     (String (sextet_char (six b3 b2 b1 b0 false false)) "="))
  | Ascii a0 a1 a2 a3 a4 a5 a6 a7 :: Ascii b0 b1 b2 b3 b4 b5 b6 b7
    :: Ascii c0 c1 c2 c3 c4 c5 c6 c7 :: rest =>
      String (sextet_char (six a7 a6 a5 a4 a3 a2))
     (String (sextet_char (six a1 a0 b7 b6 b5 b4))
     (String (sextet_char (six b3 b2 b1 b0 c7 c6))
     (String (sextet_char (six c5 c4 c3 c2 c1 c0)) (base64 rest))))
  end.

(** What [runPowerShell] hands to [execSync]. *)
Definition encoded_script (script : string) : string :=
  base64 (utf16le script).

Definition powershell_command (script : string) : string :=
  "powershell -NoProfile -NonInteractive -EncodedCommand " ++ encoded_script script.

(** A letter, a digit, [+], [/] or [=]. *)
Definition is_base64_char (c : ascii) : bool :=
  let n := nat_of_ascii c in
  (Nat.leb 65 n && Nat.leb n 90) || (Nat.leb 97 n && Nat.leb n 122)
  || (Nat.leb 47 n && Nat.leb n 57) || Nat.eqb n 43 || Nat.eqb n 61.

(** The place of a character in a string. *)
Fixpoint position (c : ascii) (s : string) : option nat :=
  match s with
  | EmptyString => None
  | String d rest =>
      if Ascii.eqb c d then Some 0%nat else option_map S (position c rest)
  end.

(** The number a base64 digit stands for. *)
Definition char_sextet (c : ascii) : option ascii :=
  option_map ascii_of_nat (position c base64_alphabet).

(** Decoding of padded base64 as [toString("base64")] and
    [Convert.ToBase64String] write it; [None] on any other text, which the
    decoders of Node and .NET treat each in its own way. *)
Fixpoint base64_decode (s : string) : option (list ascii) :=
  match s with
  | EmptyString => Some []
  | String c1 (String c2 (String c3 (String c4 rest))) =>
      match char_sextet c1, char_sextet c2 with
      | Some (Ascii p0 p1 p2 p3 p4 p5 _ _), Some (Ascii q0 q1 q2 q3 q4 q5 _ _) =>
          let a := Ascii q4 q5 p0 p1 p2 p3 p4 p5 in
          if Ascii.eqb c3 "="%char then
            match rest with
            | EmptyString =>
                if Ascii.eqb c4 "="%char && negb (q0 || q1 || q2 || q3)
                then Some [a] else None
            | String _ _ => None
            end
          else
            match char_sextet c3 with
            | Some (Ascii r0 r1 r2 r3 r4 r5 _ _) =>
                let b := Ascii r2 r3 r4 r5 q0 q1 q2 q3 in
                if Ascii.eqb c4 "="%char then
                  match rest with
                  | EmptyString => if negb (r0 || r1) then Some [a; b] else None
                  | String _ _ => None
                  end
                else
                  match char_sextet c4 with
                  | Some (Ascii t0 t1 t2 t3 t4 t5 _ _) =>
                      let c := Ascii t0 t1 t2 t3 t4 t5 r0 r1 in
                      option_map (fun l => a :: b :: c :: l) (base64_decode rest)
                  | None => None
                  end
            | None => None
            end
      | _, _ => None
      end
  | _ => None
  end.

(** Reading UTF-16, little endian, back into code units below 256; [None]
    on a unit that is not below 256. *)
Fixpoint utf16le_decode (bytes : list ascii) : option string :=
  match bytes with
  | [] => Some EmptyString
  | lo :: hi :: rest =>
      if Ascii.eqb hi zero
      then option_map (String lo) (utf16le_decode rest)
      else None
  | [_] => None
  end.

(** A character of the command line: one of base64, a space or a hyphen.
    No quote, no redirection, pipe or chaining sign and no variable sign is
    among them. *)
Definition is_command_char (c : ascii) : bool :=
  is_base64_char c || Ascii.eqb c " "%char || Ascii.eqb c "-"%char.

(** * Properties *)

(** ** [Math.min] and [Math.max] on integers *)

Lemma fold_min_Num (l : list Z) (a : Z) :
  fold_left js_min2 (map Num l) (Num a) = Num (fold_left Z.min l a).
Proof.
  revert a; induction l as [|v l IH]; intros a; simpl; [reflexivity|].
  apply IH.
Qed.

Lemma fold_max_Num (l : list Z) (a : Z) :
  fold_left js_max2 (map Num l) (Num a) = Num (fold_left Z.max l a).
Proof.
  revert a; induction l as [|v l IH]; intros a; simpl; [reflexivity|].
  apply IH.
Qed.

Lemma fold_min_bound (l : list Z) (a : Z) :
  (fold_left Z.min l a = a \/ In (fold_left Z.min l a) l)
  /\ fold_left Z.min l a <= a
  /\ forall v, In v l -> fold_left Z.min l a <= v.
Proof.
  revert a; induction l as [|u l IH]; intros a; simpl.
  - repeat split; [now left | lia | tauto].
  - destruct (IH (Z.min a u)) as (Hin & Hle & Hall).
    repeat split.
    + destruct Hin as [E | Hin]; [|now right; right].
      rewrite E. destruct (Z.min_spec a u) as [[_ ->] | [_ ->]]; [now left|].
      right; now left.
    + lia.
    + intros v [<- | Hv]; [lia | now apply Hall].
Qed.

Lemma fold_max_bound (l : list Z) (a : Z) :
  (fold_left Z.max l a = a \/ In (fold_left Z.max l a) l)
  /\ a <= fold_left Z.max l a
  /\ forall v, In v l -> v <= fold_left Z.max l a.
Proof.
  revert a; induction l as [|u l IH]; intros a; simpl.
  - repeat split; [now left | lia | tauto].
  - destruct (IH (Z.max a u)) as (Hin & Hle & Hall).
    repeat split.
    + destruct Hin as [E | Hin]; [|now right; right].
      rewrite E. destruct (Z.max_spec a u) as [[_ ->] | [_ ->]]; [right; now left|].
      now left.
    + lia.
    + intros v [<- | Hv]; [lia | now apply Hall].
Qed.

(** On a non-empty list of integers [Math.min] is the least element. *)
Lemma Math_min_is_min (l : list Z) :
  l <> [] -> exists m, Math_min (map Num l) = Num m /\ is_min m l.
Proof.
  destruct l as [|a l]; [congruence | intros _].
  exists (fold_left Z.min l a). unfold Math_min; simpl.
  split; [apply fold_min_Num|].
  destruct (fold_min_bound l a) as (Hin & Hle & Hall).
  split.
  - destruct Hin as [-> | Hin]; [now left | now right].
  - intros v [<- | Hv]; [exact Hle | now apply Hall].
Qed.

Lemma Math_max_is_max (l : list Z) :
  l <> [] -> exists m, Math_max (map Num l) = Num m /\ is_max m l.
Proof.
  destruct l as [|a l]; [congruence | intros _].
  exists (fold_left Z.max l a). unfold Math_max; simpl.
  split; [apply fold_max_Num|].
  destruct (fold_max_bound l a) as (Hin & Hle & Hall).
  split.
  - destruct Hin as [-> | Hin]; [now left | now right].
  - intros v [<- | Hv]; [exact Hle | now apply Hall].
Qed.

Lemma is_min_unique (l : list Z) (m m' : Z) :
  is_min m l -> is_min m' l -> m = m'.
Proof.
  intros [Hin Hle] [Hin' Hle'].
  specialize (Hle _ Hin'); specialize (Hle' _ Hin); lia.
Qed.

Lemma is_max_unique (l : list Z) (m m' : Z) :
  is_max m l -> is_max m' l -> m = m'.
Proof.
  intros [Hin Hle] [Hin' Hle'].
  specialize (Hle _ Hin'); specialize (Hle' _ Hin); lia.
Qed.

(** ** The apostrophe escaping *)




(** In the script text the pattern literal holds the title and nothing else:
    it ends at the apostrophe the template puts after the second star. *)
Lemma pattern_literal_holds_title (title : string) :
  exists after,
    pattern_onwards (replace_squote title)
    = "*" ++ replace_squote title ++ "*" ++ String squote after
    /\ scan_sq (pattern_onwards (replace_squote title))
       = Some ("*" ++ title ++ "*", after).
Proof.
  unfold pattern_onwards.
  eexists; split; [reflexivity|].
  change ("*" ++ replace_squote title ++ "*" ++ ?r)
    with (String "*"%char (replace_squote title ++ "*" ++ r)).
  cbn [scan_sq]. change (Ascii.eqb "*"%char squote) with false; cbv iota.
  assert (E : forall t a, scan_sq (replace_squote t ++ String "*"%char (String squote (String " "%char a)))
                          = Some (t ++ "*", String " "%char a)).
  { intros t a. induction t as [|b t IH].
    - reflexivity.
    - cbn [replace_squote]. destruct (Ascii.eqb b squote) eqn:Hb.
      + apply Ascii.eqb_eq in Hb; subst b. cbn [append scan_sq].
        change (Ascii.eqb squote squote) with true; cbv iota. now rewrite IH.
      + cbn [append scan_sq]. rewrite Hb. now rewrite IH. }
  unfold script_filter_rest.
  cbn [append]. rewrite E. reflexivity.
Qed.

(** ** Single calls *)

Section Runs.
Variable P : Platform.
Local Open Scope list_scope.

(** [execSync] with a timeout comes back, and within the timeout. *)
Lemma execSync_bounded {A} (child : World P -> ProcRun A * World P)
      (t : Z) (st : State P) :
  exists o w' d,
    execSync P child (Some t) st = (o, mkState w' (clock st + d) (log st))
    /\ o <> Hang /\ d <= t.
Proof.
  unfold execSync. destruct (run_time P (world st)) as [d|].
  - destruct (Z.leb_spec d t) as [Hd | Hd].
    + destruct (child (world st)) as [[result | code err] w'].
      * exists (Return result), w', d. repeat split; [discriminate | exact Hd].
      * exists (Throw (ExecFailed code err)), w', d.
        repeat split; [discriminate | exact Hd].
    + exists (Throw (ExecTimedOut t)), (killed P (world st)), t.
      repeat split; [discriminate | lia].
  - exists (Throw (ExecTimedOut t)), (killed P (world st)), t.
    repeat split; [discriminate | lia].
Qed.

Lemma runPowerShell_run (script : PSScript) (st : State P) :
  exists o w' d,
    runPowerShell P script st
    = (o, mkState w' (clock st + d) (EvRunPowerShell script :: log st))
    /\ o <> Hang /\ d <= 15000.
Proof.
  unfold runPowerShell, bind, emit.
  destruct (execSync_bounded (script_run P script) 15000
              (mkState (world st) (clock st) (EvRunPowerShell script :: log st)))
    as (o & w' & d & E & Ho & Hd).
  cbn [world clock log] in E.
  exists o, w', d. rewrite E. destruct o; [| |congruence]; repeat split; auto; discriminate.
Qed.

Lemma getScreenLayout_log (st st1 : State P) (o : Outcome (list ScreenInfo)) :
  getScreenLayout P st = (o, st1) ->
  log st1 = EvGetScreenLayout :: log st /\ o <> Hang.
Proof.
  unfold getScreenLayout, bind, emit. intros E.
  destruct (execSync_bounded (AllScreens P) 10000
              (mkState (world st) (clock st) (EvGetScreenLayout :: log st)))
    as (o' & w' & d & E' & Ho & _).
  cbn [world clock log] in E'. rewrite E' in E.
  destruct o'; [| |congruence]; inversion E; subst; split; auto; discriminate.
Qed.

Lemma capture_at_run (minX minY : jsnum) (screen : ScreenInfo) (st : State P) :
  exists o w' d,
    capture_at P minX minY screen st
    = (o, mkState w' (clock st + d) (capture_event P screen :: log st))
    /\ o <> Hang /\ d <= 15000
    /\ forall c, o = Return c ->
         left c = js_sub (Num (x screen)) minX
         /\ top c = js_sub (Num (y screen)) minY
         /\ captureSingleScreen P screen st
            = (Return (input c),
               mkState w' (clock st + d) (capture_event P screen :: log st)).
Proof.
  unfold capture_at, captureSingleScreen, bind.
  destruct (runPowerShell_run (ScreenScript screen) st) as (o & w' & d & E & Ho & Hd).
  rewrite E. destruct o as [buf | e |]; [| |congruence].
  - eexists _, w', d. split; [reflexivity|].
    split; [discriminate|]. split; [exact Hd|].
    intros l Hl; inversion Hl; repeat split; reflexivity.
  - exists (Throw e), w', d. split; [reflexivity|].
    split; [discriminate|]. split; [exact Hd|].
    intros l Hl; discriminate.
Qed.

(** The capture loop: it runs the captures of a prefix of the screens, in
    order, and nothing else; when it returns it has run them all, every
    layer sits at its screen's corner minus the minimum, and the layers hold
    the buffers the captures returned. *)
Lemma capture_loop (minX minY : jsnum) (screens : list ScreenInfo) (st : State P) :
  exists o st' n,
    mapM P (capture_at P minX minY) screens st = (o, st')
    /\ o <> Hang
    /\ log st' = rev (map (capture_event P) (firstn n screens)) ++ log st
    /\ forall captures, o = Return captures ->
         firstn n screens = screens
         /\ Forall2 (placed minX minY) screens captures
         /\ mapM P (captureSingleScreen P) screens st
            = (Return (map input captures), st').
Proof.
  revert st; induction screens as [|s screens IH]; intros st.
  - exists (Return []), st, 0%nat. cbn.
    split; [reflexivity|]. split; [discriminate|]. split; [reflexivity|].
    intros cs Hc; inversion Hc; repeat split; constructor.
  - cbn [mapM]. unfold bind at 1.
    destruct (capture_at_run minX minY s st) as (o & w' & d & E & Ho & _ & Hpos).
    rewrite E. destruct o as [c | e |]; [| |congruence].
    + unfold bind at 1.
      destruct (IH (mkState w' (clock st + d) (capture_event P s :: log st)))
        as (o2 & st2 & n & E2 & Ho2 & Hlog & Hall).
      rewrite E2. cbn [log] in Hlog.
      destruct o2 as [cs | e |]; [| |congruence].
      * exists (Return (c :: cs)), st2, (S n). split; [reflexivity|].
        split; [discriminate|]. split.
        -- cbn [firstn map rev]. rewrite Hlog, <- app_assoc. reflexivity.
        -- intros captures Hc; inversion Hc; subst captures.
           destruct (Hall cs eq_refl) as (Hn & HF & Hbufs).
           destruct (Hpos c eq_refl) as (Hl & Ht & Hone).
           split; [cbn [firstn]; now rewrite Hn|].
           split; [constructor; [split; assumption | exact HF]|].
           unfold bind at 1. rewrite Hone.
           unfold bind at 1. rewrite Hbufs. reflexivity.
      * exists (Throw e), st2, (S n). split; [reflexivity|].
        split; [discriminate|]. split.
        -- cbn [firstn map rev]. rewrite Hlog, <- app_assoc. reflexivity.
        -- intros captures Hc; discriminate.
    + exists (Throw e), (mkState w' (clock st + d) (capture_event P s :: log st)), 1%nat.
      split; [reflexivity|]. split; [discriminate|]. split.
      * cbn. destruct screens; reflexivity.
      * intros captures Hc; discriminate.
Qed.

(** The loop stops at the first capture that throws. *)
Lemma capture_loop_stops (minX minY : jsnum) (pre post : list ScreenInfo)
      (s : ScreenInfo) (st sti sti' : State P) (done : list (Layer P)) (e : Error) :
  mapM P (capture_at P minX minY) pre st = (Return done, sti) ->
  captureSingleScreen P s sti = (Throw e, sti') ->
  mapM P (capture_at P minX minY) (pre ++ s :: post) st = (Throw e, sti').
Proof.
  revert st done; induction pre as [|p pre IH]; intros st done Hpre Hs.
  - cbn in Hpre. inversion Hpre; subst sti.
    cbn [app mapM]. unfold bind at 1. unfold capture_at, bind. now rewrite Hs.
  - cbn [app mapM] in *. unfold bind at 1 in Hpre. unfold bind at 1.
    destruct (capture_at P minX minY p st) as [[c | e' |] st2]; try discriminate.
    unfold bind at 1 in Hpre. unfold bind at 1.
    destruct (mapM P (capture_at P minX minY) pre st2) as [[cs | e' |] st3] eqn:E;
      try discriminate.
    inversion Hpre; subst.
    now rewrite (IH _ _ E Hs).
Qed.

(** The events of the loop when all of [pre] is captured. *)
Lemma capture_loop_log (minX minY : jsnum) (pre : list ScreenInfo)
      (st sti : State P) (done : list (Layer P)) :
  mapM P (capture_at P minX minY) pre st = (Return done, sti) ->
  log sti = rev (map (capture_event P) pre) ++ log st.
Proof.
  intros E.
  destruct (capture_loop minX minY pre st) as (o & st' & n & E' & _ & Hlog & Hall).
  rewrite E in E'. inversion E'; subst o st'.
  destruct (Hall done eq_refl) as (Hn & _). now rewrite Hn in Hlog.
Qed.

End Runs.

(** ** The all-screens path *)

Section AllScreens.
Variable P : Platform.
Local Open Scope list_scope.

(** With any number of screens but one, the request is the capture loop
    followed by the composite. *)
Lemma captureAllScreens_multi (st st1 : State P) (screens : list ScreenInfo) :
  getScreenLayout P st = (Return screens, st1) ->
  List.length screens <> 1%nat ->
  captureAllScreens P st =
    (let minX := Math_min (map (fun s => Num (x s)) screens) in
     let minY := Math_min (map (fun s => Num (y s)) screens) in
     let maxX := Math_max (map (fun s => Num (x s + width s)) screens) in
     let maxY := Math_max (map (fun s => Num (y s + height s)) screens) in
     let totalWidth := js_sub maxX minX in
     let totalHeight := js_sub maxY minY in
     bind P (mapM P (capture_at P minX minY) screens) (fun captures =>
     bind P (emit P (EvSharpCompositePng totalWidth totalHeight captures)) (fun _ =>
     await P (sharp_composite_png P totalWidth totalHeight
                                  (map (sharp_layer P) captures))))) st1.
Proof.
  intros E Hlen. unfold captureAllScreens. unfold bind at 1. rewrite E.
  destruct screens as [|a [|b l]]; [reflexivity | now elim Hlen | reflexivity].
Qed.

Lemma captureAllScreens_single (st st1 : State P) (screen : ScreenInfo) :
  getScreenLayout P st = (Return [screen], st1) ->
  captureAllScreens P st = captureSingleScreen P screen st1.
Proof.
  intros E. unfold captureAllScreens. unfold bind at 1. now rewrite E.
Qed.

(** The shape of a multi-screen request: either every screen was captured
    and one composite was asked for, with the sizes and offsets the program
    computed, or a capture threw and the captures of a prefix is all that
    happened. *)
Lemma multi_run (w : World P) (screens : list ScreenInfo) (st1 : State P) :
  getScreenLayout P (start P w) = (Return screens, st1) ->
  List.length screens <> 1%nat ->
  let minX := Math_min (map (fun s => Num (x s)) screens) in
  let minY := Math_min (map (fun s => Num (y s)) screens) in
  let maxX := Math_max (map (fun s => Num (x s + width s)) screens) in
  let maxY := Math_max (map (fun s => Num (y s + height s)) screens) in
  exists o st',
    captureAllScreens P (start P w) = (o, st') /\ o <> Hang /\
    ((exists captures,
        log st' = EvSharpCompositePng (js_sub maxX minX) (js_sub maxY minY) captures
                  :: rev (map (capture_event P) screens) ++ [EvGetScreenLayout]
        /\ Forall2 (placed minX minY) screens captures
        /\ fst (mapM P (captureSingleScreen P) screens st1)
           = Return (map input captures))
     \/ (exists e n,
           o = Throw e
           /\ log st' = rev (map (capture_event P) (firstn n screens))
                        ++ [EvGetScreenLayout])).
Proof.
  intros E Hlen minX minY maxX maxY.
  rewrite (captureAllScreens_multi _ _ _ E Hlen).
  destruct (getScreenLayout_log P _ _ _ E) as [Hlog1 _]. cbn in Hlog1.
  cbv zeta. fold minX minY maxX maxY.
  destruct (capture_loop P minX minY screens st1)
    as (o & st2 & n & E2 & Ho & Hlog & Hall).
  unfold bind at 1. rewrite E2. rewrite Hlog1 in Hlog.
  destruct o as [captures | e |]; [| |congruence].
  - destruct (Hall captures eq_refl) as (Hn & HF & Hbufs). rewrite Hn in Hlog.
    unfold bind, emit, await. cbn [world clock log].
    destruct (sharp_composite_png P _ _ _) as [buf | e];
      eexists _, _; (split; [reflexivity|]); (split; [discriminate|]);
      left; exists captures; cbn [log]; rewrite Hlog, Hbufs; repeat split; auto.
  - exists (Throw e), st2. split; [reflexivity|]. split; [discriminate|].
    right. exists e, n. split; [reflexivity | exact Hlog].
Qed.

Lemma capture_events_only (screens : list ScreenInfo) (ev : Event P) :
  In ev (rev (map (capture_event P) screens) ++ [EvGetScreenLayout]) ->
  ev = EvGetScreenLayout \/ exists s, In s screens /\ ev = capture_event P s.
Proof.
  intros H. apply in_app_or in H. cbn [In] in H.
  destruct H as [H | [H | []]]; [|now left].
  right. apply in_rev, in_map_iff in H. destruct H as (s & <- & Hs). now exists s.
Qed.

Lemma In_prefix {A} (n : nat) (l : list A) (a : A) : In a (firstn n l) -> In a l.
Proof.
  revert l; induction n as [|n IH]; intros [|b l]; cbn; try tauto.
  intros [-> | H]; [now left | right; now apply IH].
Qed.

(** The composites of a multi-screen request: at most the one of
    [multi_run], and exactly that when the request returns. *)
Lemma multi_composite (w : World P) (screens : list ScreenInfo) (st1 : State P) :
  getScreenLayout P (start P w) = (Return screens, st1) ->
  List.length screens <> 1%nat ->
  let minX := Math_min (map (fun s => Num (x s)) screens) in
  let minY := Math_min (map (fun s => Num (y s)) screens) in
  let maxX := Math_max (map (fun s => Num (x s + width s)) screens) in
  let maxY := Math_max (map (fun s => Num (y s + height s)) screens) in
  let r := captureAllScreens P (start P w) in
  (forall tw th layers,
      In (EvSharpCompositePng tw th layers) (log (snd r)) ->
      tw = js_sub maxX minX /\ th = js_sub maxY minY
      /\ Forall2 (placed minX minY) screens layers
      /\ fst (mapM P (captureSingleScreen P) screens st1)
         = Return (map input layers))
  /\ (forall buf, fst r = Return buf ->
        exists layers,
          In (EvSharpCompositePng (js_sub maxX minX) (js_sub maxY minY) layers)
             (log (snd r))).
Proof.
  intros E Hlen minX minY maxX maxY r.
  destruct (multi_run w screens st1 E Hlen) as (o & st' & Er & Ho & Hshape).
  fold minX minY maxX maxY in Hshape. subst r. rewrite Er. cbn [fst snd].
  destruct Hshape as [(captures & Hlog & HF & Hbufs) | (e & n & -> & Hlog)];
    rewrite Hlog.
  - split.
    + intros tw th layers [Hhd | Htl].
      * inversion Hhd; subst. auto.
      * apply capture_events_only in Htl.
        destruct Htl as [Htl | (s & _ & Htl)]; discriminate.
    + intros buf _. exists captures. now left.
  - split.
    + intros tw th layers Hin. exfalso.
      assert (Hin' : In (EvSharpCompositePng tw th layers)
                        (rev (map (capture_event P) screens) ++ [EvGetScreenLayout])).
      { apply in_app_or in Hin. apply in_or_app.
        destruct Hin as [Hin | Hin]; [left | now right].
        apply in_rev, in_map_iff in Hin. destruct Hin as (s & Hs & Hin).
        apply -> in_rev. apply in_map_iff. exists s. split; [exact Hs|].
        eapply In_prefix; eauto. }
      apply capture_events_only in Hin'.
      destruct Hin' as [Hin' | (s & _ & Hin')]; discriminate.
    + intros buf Hb; discriminate.
Qed.

(** From the program's [jsnum] values to the integers they are when there
    is a screen. *)
Lemma bounds_are_integers (screens : list ScreenInfo) :
  screens <> [] ->
  exists minX minY maxX maxY,
    Math_min (map (fun s => Num (x s)) screens) = Num minX
    /\ Math_min (map (fun s => Num (y s)) screens) = Num minY
    /\ Math_max (map (fun s => Num (x s + width s)) screens) = Num maxX
    /\ Math_max (map (fun s => Num (y s + height s)) screens) = Num maxY
    /\ is_min minX (map x screens) /\ is_min minY (map y screens)
    /\ is_max maxX (map (fun s => x s + width s) screens)
    /\ is_max maxY (map (fun s => y s + height s) screens).
Proof.
  intros Hne.
  assert (Hm : forall f : ScreenInfo -> Z, map f screens <> []).
  { intros f. destruct screens; [congruence | discriminate]. }
  destruct (Math_min_is_min _ (Hm x)) as (minX & EminX & HminX).
  destruct (Math_min_is_min _ (Hm y)) as (minY & EminY & HminY).
  destruct (Math_max_is_max _ (Hm (fun s => x s + width s))) as (maxX & EmaxX & HmaxX).
  destruct (Math_max_is_max _ (Hm (fun s => y s + height s))) as (maxY & EmaxY & HmaxY).
  rewrite map_map in EminX, EminY, EmaxX, EmaxY.
  exists minX, minY, maxX, maxY. repeat split; assumption || apply HminX || apply HminY
    || apply HmaxX || apply HmaxY.
Qed.

Lemma Forall2_impl_In {A B} (R R' : A -> B -> Prop) (l : list A) (l' : list B) :
  (forall a b, In a l -> R a b -> R' a b) ->
  Forall2 R l l' -> Forall2 R' l l'.
Proof.
  intros H HF. induction HF as [|a b l l' Hab HF IH]; constructor.
  - apply H; [now left | exact Hab].
  - apply IH. intros a' b' Hin. apply H. now right.
Qed.

(** C5.  With exactly one screen the request is that screen's capture: same
    outcome, same final state, no composite asked of sharp.  If the capture
    returns a buffer that the normalizer does not find too wide, the tool
    answers with that very buffer. *)
Theorem single_screen_is_its_capture
        (w : World P) (screen : ScreenInfo) (st1 : State P) :
  getScreenLayout P (start P w) = (Return [screen], st1) ->
  captureAllScreens P (start P w) = captureSingleScreen P screen st1
  /\ (forall totalWidth totalHeight layers,
        ~ In (EvSharpCompositePng totalWidth totalHeight layers)
             (log (snd (captureAllScreens P (start P w)))))
  /\ (forall buf st2 metadata,
        captureSingleScreen P screen st1 = (Return buf, st2) ->
        sharp_metadata P buf = Ok metadata ->
        too_wide metadata default_targetWidth = false ->
        fst (take_screenshot P None (start P w))
        = Return (ImageContent buf "image/png")).
Proof.
  intros E. pose proof (captureAllScreens_single _ _ _ E) as Hsingle.
  split; [exact Hsingle|]. split.
  - intros tw th layers. rewrite Hsingle.
    destruct (getScreenLayout_log P _ _ _ E) as [Hlog1 _]. cbn in Hlog1.
    unfold captureSingleScreen.
    destruct (runPowerShell_run P (ScreenScript screen) st1) as (o & w' & d & E2 & _).
    rewrite E2. cbn [snd log]. rewrite Hlog1.
    intros [H | [H | []]]; discriminate.
  - intros buf st2 metadata Hcap Hmd Hwide.
    unfold take_screenshot, try_catch. unfold bind at 1.
    rewrite Hsingle, Hcap.
    unfold resizeImage, bind, emit, await. rewrite Hmd, Hwide. reflexivity.
Qed.

(** The capture loop of the program and the bare sequence of captures
    succeed together. *)
Lemma capture_loop_of_captures (minX minY : jsnum) (l : list ScreenInfo)
      (st st' : State P) (done : list (Buffer P)) :
  mapM P (captureSingleScreen P) l st = (Return done, st') ->
  exists layers, mapM P (capture_at P minX minY) l st = (Return layers, st').
Proof.
  revert st done; induction l as [|s l IH]; intros st done H.
  - cbn in H. inversion H; subst. now exists [].
  - cbn [mapM] in *. cbv [bind ret capture_at] in *.
    destruct (captureSingleScreen P s st) as [[buf | e |] st2]; try discriminate.
    destruct (mapM P (captureSingleScreen P) l st2) as [[bufs | e |] st3] eqn:E;
      try discriminate.
    inversion H; subst.
    destruct (IH _ _ E) as (layers & Hl).
    cbv [bind ret capture_at] in Hl. rewrite Hl. eexists; reflexivity.
Qed.

Lemma Forall2_map_right {A B C} (R : A -> C -> Prop) (f : B -> C)
      (l : list A) (l' : list B) :
  Forall2 (fun a b => R a (f b)) l l' -> Forall2 R l (map f l').
Proof. induction 1; cbn; constructor; auto. Qed.

(** A request over any number of screens but one whose captures all
    return: it asks sharp for one composite, of the size and with the layers
    the program computed, and ends as that composite ends. *)
Lemma multi_success (w : World P) (screens : list ScreenInfo)
      (st1 st2 : State P) (bufs : list (Buffer P)) :
  getScreenLayout P (start P w) = (Return screens, st1) ->
  List.length screens <> 1%nat ->
  mapM P (captureSingleScreen P) screens st1 = (Return bufs, st2) ->
  let minX := Math_min (map (fun s => Num (x s)) screens) in
  let minY := Math_min (map (fun s => Num (y s)) screens) in
  let maxX := Math_max (map (fun s => Num (x s + width s)) screens) in
  let maxY := Math_max (map (fun s => Num (y s + height s)) screens) in
  exists captures,
    captureAllScreens P (start P w)
    = (match sharp_composite_png P (js_sub maxX minX) (js_sub maxY minY)
               (map (sharp_layer P) captures) with
       | Ok composite => Return composite
       | Err e => Throw e
       end,
       mkState (world st2) (clock st2)
         (EvSharpCompositePng (js_sub maxX minX) (js_sub maxY minY) captures
          :: log st2))
    /\ Forall2 (placed minX minY) screens captures
    /\ map input captures = bufs.
Proof.
  intros E Hlen Hcap minX minY maxX maxY.
  rewrite (captureAllScreens_multi _ _ _ E Hlen). cbv zeta.
  fold minX minY maxX maxY.
  destruct (capture_loop_of_captures minX minY _ _ _ _ Hcap) as (captures & Hl).
  destruct (capture_loop P minX minY screens st1)
    as (o & st' & n & E2 & _ & _ & Hall).
  rewrite Hl in E2. inversion E2; subst o st'.
  destruct (Hall captures eq_refl) as (_ & HF & Hbufs).
  rewrite Hcap in Hbufs. inversion Hbufs; subst bufs.
  exists captures. unfold bind at 1. rewrite Hl.
  unfold bind, emit, await. cbn [world clock log].
  split; [|split; [exact HF | reflexivity]].
  now destruct (sharp_composite_png P _ _ _).
Qed.

(** C1.  In a request over two or more screens whose captures all return,
    sharp is asked for one composite on a canvas as wide as the largest right
    edge [x + width] minus the smallest [x], and as high as the largest
    bottom edge [y + height] minus the smallest [y]; the request ends as that
    composite ends.  Whatever the captures do, no composite of the request
    has another size, and a request that returns has made that composite. *)
Theorem canvas_is_bounding_box
        (w : World P) (screens : list ScreenInfo) (st1 : State P) :
  getScreenLayout P (start P w) = (Return screens, st1) ->
  (2 <= List.length screens)%nat ->
  exists minX minY maxX maxY : Z,
    is_min minX (map x screens) /\ is_min minY (map y screens)
    /\ is_max maxX (map (fun s => x s + width s) screens)
    /\ is_max maxY (map (fun s => y s + height s) screens)
    /\ (forall bufs st2,
          mapM P (captureSingleScreen P) screens st1 = (Return bufs, st2) ->
          exists (layers : list (Buffer P * jsnum * jsnum)) (captures : list (Layer P)),
            captureAllScreens P (start P w)
            = (match sharp_composite_png P (Num (maxX - minX)) (Num (maxY - minY))
                       layers with
               | Ok composite => Return composite
               | Err e => Throw e
               end,
               mkState (world st2) (clock st2)
                 (EvSharpCompositePng (Num (maxX - minX)) (Num (maxY - minY)) captures
                  :: log st2))
            /\ map (fun layer => fst (fst layer)) layers = bufs)
    /\ (forall totalWidth totalHeight layers,
          In (EvSharpCompositePng totalWidth totalHeight layers)
             (log (snd (captureAllScreens P (start P w)))) ->
          totalWidth = Num (maxX - minX) /\ totalHeight = Num (maxY - minY))
    /\ (forall buf,
          fst (captureAllScreens P (start P w)) = Return buf ->
          exists layers,
            In (EvSharpCompositePng (Num (maxX - minX)) (Num (maxY - minY)) layers)
               (log (snd (captureAllScreens P (start P w))))).
Proof.
  intros E Hlen.
  assert (Hne : screens <> []) by (destruct screens; [cbn in Hlen; lia | discriminate]).
  assert (Hlen1 : List.length screens <> 1%nat) by lia.
  destruct (bounds_are_integers screens Hne)
    as (minX & minY & maxX & maxY & EminX & EminY & EmaxX & EmaxY
        & HminX & HminY & HmaxX & HmaxY).
  destruct (multi_composite w screens st1 E Hlen1) as [Hall Hret].
  rewrite EminX, EminY, EmaxX, EmaxY in Hall, Hret. cbn [js_sub] in Hall, Hret.
  exists minX, minY, maxX, maxY.
  repeat (split; [assumption|]). split; [|split].
  - intros bufs st2 Hcap.
    destruct (multi_success w screens st1 st2 bufs E Hlen1 Hcap)
      as (captures & Hrun & _ & Hbufs).
    rewrite EminX, EminY, EmaxX, EmaxY in Hrun. cbn [js_sub] in Hrun.
    exists (map (sharp_layer P) captures), captures. split; [exact Hrun|].
    rewrite map_map. exact Hbufs.
  - intros tw th layers Hin. destruct (Hall tw th layers Hin) as (-> & -> & _).
    split; reflexivity.
  - exact Hret.
Qed.

(** C4.  In a request over two or more screens whose captures all return,
    the layers handed to sharp's compositor hold, in order, the buffers the
    captures returned; the layer of each screen sits at
    [(x - minX, y - minY)], for the smallest [x] and [y] over the screens;
    that offset is not negative, and the offset plus the screen's size, which
    is the size of the bitmap the capture script allocates, stays within the
    canvas.  The array of captures the program keeps is placed the same
    way. *)
Theorem layers_placed_within_canvas
        (w : World P) (screens : list ScreenInfo) (st1 : State P) :
  getScreenLayout P (start P w) = (Return screens, st1) ->
  (2 <= List.length screens)%nat ->
  exists minX minY canvasWidth canvasHeight : Z,
    is_min minX (map x screens) /\ is_min minY (map y screens)
    /\ (forall bufs st2,
          mapM P (captureSingleScreen P) screens st1 = (Return bufs, st2) ->
          exists layers : list (Buffer P * jsnum * jsnum),
            fst (captureAllScreens P (start P w))
            = match sharp_composite_png P (Num canvasWidth) (Num canvasHeight)
                      layers with
              | Ok composite => Return composite
              | Err e => Throw e
              end
            /\ map (fun layer => fst (fst layer)) layers = bufs
            /\ Forall2 (fun s layer =>
                          snd (fst layer) = Num (x s - minX)
                          /\ snd layer = Num (y s - minY)
                          /\ 0 <= x s - minX /\ 0 <= y s - minY
                          /\ x s - minX + width s <= canvasWidth
                          /\ y s - minY + height s <= canvasHeight)
                       screens layers)
    /\ (forall totalWidth totalHeight layers,
          In (EvSharpCompositePng totalWidth totalHeight layers)
             (log (snd (captureAllScreens P (start P w)))) ->
          totalWidth = Num canvasWidth /\ totalHeight = Num canvasHeight
          /\ fst (mapM P (captureSingleScreen P) screens st1)
             = Return (map input layers)
          /\ Forall2 (fun s c =>
                        left c = Num (x s - minX) /\ top c = Num (y s - minY)
                        /\ 0 <= x s - minX /\ 0 <= y s - minY
                        /\ x s - minX + width s <= canvasWidth
                        /\ y s - minY + height s <= canvasHeight)
                     screens layers)
    /\ (forall buf,
          fst (captureAllScreens P (start P w)) = Return buf ->
          exists layers,
            In (EvSharpCompositePng (Num canvasWidth) (Num canvasHeight) layers)
               (log (snd (captureAllScreens P (start P w))))).
Proof.
  intros E Hlen.
  assert (Hne : screens <> []) by (destruct screens; [cbn in Hlen; lia | discriminate]).
  assert (Hlen1 : List.length screens <> 1%nat) by lia.
  destruct (bounds_are_integers screens Hne)
    as (minX & minY & maxX & maxY & EminX & EminY & EmaxX & EmaxY
        & HminX & HminY & HmaxX & HmaxY).
  destruct (multi_composite w screens st1 E Hlen1) as [Hall Hret].
  rewrite EminX, EminY, EmaxX, EmaxY in Hall, Hret. cbn [js_sub] in Hall, Hret.
  assert (Hbounds : forall s, In s screens ->
            0 <= x s - minX /\ 0 <= y s - minY
            /\ x s - minX + width s <= maxX - minX
            /\ y s - minY + height s <= maxY - minY).
  { intros s Hs.
    assert (Hx : minX <= x s) by (apply HminX, in_map, Hs).
    assert (Hy : minY <= y s) by (apply HminY, in_map, Hs).
    assert (HX : x s + width s <= maxX)
      by (apply HmaxX; apply (in_map (fun s => x s + width s)), Hs).
    assert (HY : y s + height s <= maxY)
      by (apply HmaxY; apply (in_map (fun s => y s + height s)), Hs).
    lia. }
  exists minX, minY, (maxX - minX), (maxY - minY).
  repeat (split; [assumption|]). split; [|split; [|exact Hret]].
  - intros bufs st2 Hcap.
    destruct (multi_success w screens st1 st2 bufs E Hlen1 Hcap)
      as (captures & Hrun & HF & Hbufs).
    rewrite EminX, EminY, EmaxX, EmaxY in Hrun. cbn [js_sub] in Hrun.
    rewrite EminX, EminY in HF.
    exists (map (sharp_layer P) captures). split; [now rewrite Hrun|].
    split; [rewrite map_map; exact Hbufs|].
    apply Forall2_map_right. revert HF. apply Forall2_impl_In.
    intros s c Hs [Hl Ht]. cbn [js_sub] in Hl, Ht.
    unfold sharp_layer. cbn [fst snd].
    destruct (Hbounds s Hs) as (? & ? & ? & ?). repeat split; assumption.
  - intros tw th layers Hin. destruct (Hall tw th layers Hin) as (-> & -> & HF & Hbufs).
    repeat (split; [reflexivity|]). split; [exact Hbufs|].
    revert HF. apply Forall2_impl_In. intros s c Hs [Hl Ht]. cbn [js_sub] in Hl, Ht.
    destruct (Hbounds s Hs) as (? & ? & ? & ?). repeat split; assumption.
Qed.

(** C3, as the program has it.  When the screens before [s] were captured
    and the capture of [s] throws, the request ends there: it throws the
    same error from the state that capture left, its calls are the layout
    query, the captures of the screens before [s] in order and the capture
    of [s], and no screen outside these was attempted. *)
Theorem capture_failure_ends_request
        (w : World P) (screens pre post : list ScreenInfo) (s : ScreenInfo)
        (st1 sti sti' : State P) (done : list (Buffer P)) (e : Error) :
  getScreenLayout P (start P w) = (Return screens, st1) ->
  screens = pre ++ s :: post ->
  mapM P (captureSingleScreen P) pre st1 = (Return done, sti) ->
  captureSingleScreen P s sti = (Throw e, sti') ->
  captureAllScreens P (start P w) = (Throw e, sti')
  /\ log sti' = capture_event P s :: rev (map (capture_event P) pre)
                ++ [EvGetScreenLayout]
  /\ forall s', ~ In s' (pre ++ [s]) -> ~ attempted s' sti'.
Proof.
  intros E Hs Hpre Hfail.
  destruct (getScreenLayout_log P _ _ _ E) as [Hlog1 _]. cbn in Hlog1.
  assert (Hrun : captureAllScreens P (start P w) = (Throw e, sti')).
  { destruct (Nat.eq_dec (List.length screens) 1) as [H1 | H1].
    - assert (pre = [] /\ post = []) as [-> ->].
      { subst screens. rewrite length_app in H1. cbn in H1.
        destruct pre; destruct post; cbn in H1; try lia; auto. }
      cbn in Hpre. inversion Hpre; subst sti. cbn in Hs. subst screens.
      now rewrite (captureAllScreens_single _ _ _ E).
    - rewrite (captureAllScreens_multi _ _ _ E H1). cbv zeta.
      set (minX := Math_min (map (fun s => Num (x s)) screens)).
      set (minY := Math_min (map (fun s => Num (y s)) screens)).
      destruct (capture_loop_of_captures minX minY _ _ _ _ Hpre) as (layers & Hl).
      unfold bind at 1. rewrite Hs.
      now rewrite (capture_loop_stops P minX minY pre post s _ _ _ _ _ Hl Hfail). }
  assert (Hlog : log sti' = capture_event P s :: rev (map (capture_event P) pre)
                            ++ [EvGetScreenLayout]).
  { destruct (capture_loop_of_captures NaN NaN _ _ _ _ Hpre) as (layers & Hl).
    pose proof (capture_loop_log P _ _ _ _ _ _ Hl) as Hlogi.
    unfold captureSingleScreen in Hfail.
    destruct (runPowerShell_run P (ScreenScript s) sti) as (o & w' & d & E2 & _).
    rewrite E2 in Hfail. inversion Hfail; subst.
    cbn [log]. rewrite Hlogi, Hlog1. reflexivity. }
  split; [exact Hrun|]. split; [exact Hlog|].
  intros s' Hnot Hatt. unfold attempted in Hatt. rewrite Hlog in Hatt.
  apply Hnot. apply in_or_app.
  destruct Hatt as [Hhd | Htl].
  - right. left. unfold capture_event in Hhd. now inversion Hhd.
  - left. apply capture_events_only in Htl.
    destruct Htl as [Htl | (s2 & Hin & Htl)]; [discriminate|].
    unfold capture_event in Htl. inversion Htl; subst. exact Hin.
Qed.

End AllScreens.

(** ** The normalizer *)

Section Normalizer.
Variable P : Platform.
Local Open Scope list_scope.

(** The two ways [resizeImage] returns. *)
Lemma resizeImage_run (buf out : Buffer P) (targetWidth : Z) (st st' : State P) :
  resizeImage P buf targetWidth st = (Return out, st') ->
  exists metadata,
    sharp_metadata P buf = Ok metadata
    /\ world st' = world st /\ clock st' = clock st
    /\ if too_wide metadata targetWidth
       then sharp_resize_png P buf targetWidth = Ok out
            /\ log st' = EvSharpResizePng buf targetWidth
                         :: EvSharpMetadata buf :: log st
       else out = buf /\ log st' = EvSharpMetadata buf :: log st.
Proof.
  unfold resizeImage, bind, emit, await, ret. cbn [world clock log].
  destruct (sharp_metadata P buf) as [metadata | e]; [|discriminate].
  intros H. exists metadata. split; [reflexivity|].
  destruct (too_wide metadata targetWidth).
  - cbn [world clock log] in H.
    destruct (sharp_resize_png P buf targetWidth) as [b | e]; [|discriminate].
    inversion H; subst. cbn. auto.
  - inversion H; subst. cbn. auto.
Qed.


(** C7, as the program has it.  The normalizer encodes to PNG exactly when
    it downscales.  For a buffer whose reported width is greater than the
    ceiling (and not 0) it asks sharp for the resize-and-PNG pipeline and
    ends as that ends.  A buffer whose width is at most the ceiling, or 0, or
    not reported, is returned as it came, and sharp is asked for nothing but
    the metadata. *)
Theorem reencodes_only_when_downscaling
        (buf : Buffer P) (targetWidth : Z) (st : State P) (metadata : Metadata) :
  sharp_metadata P buf = Ok metadata ->
  (forall w, md_width metadata = Some w -> w <> 0 -> targetWidth < w ->
     resizeImage P buf targetWidth st
     = (match sharp_resize_png P buf targetWidth with
        | Ok out => Return out
        | Err e => Throw e
        end,
        mkState (world st) (clock st)
          (EvSharpResizePng buf targetWidth :: EvSharpMetadata buf :: log st)))
  /\ (forall w, md_width metadata = Some w -> w = 0 \/ w <= targetWidth ->
        resizeImage P buf targetWidth st
        = (Return buf,
           mkState (world st) (clock st) (EvSharpMetadata buf :: log st)))
  /\ (md_width metadata = None ->
        resizeImage P buf targetWidth st
        = (Return buf,
           mkState (world st) (clock st) (EvSharpMetadata buf :: log st))).
Proof.
  intros Hmd. unfold resizeImage, bind, emit, await, ret. cbn [world clock log].
  rewrite Hmd. unfold too_wide. repeat split.
  - intros w Hw Hw0 Hlt. rewrite Hw.
    apply Z.eqb_neq in Hw0. apply Z.ltb_lt in Hlt. rewrite Hw0, Hlt.
    cbn [negb andb world clock log].
    now destruct (sharp_resize_png P buf targetWidth).
  - intros w Hw [-> | Hle]; rewrite Hw.
    + reflexivity.
    + apply Z.ltb_ge in Hle. rewrite Hle. now rewrite andb_false_r.
  - intros Hnone. now rewrite Hnone.
Qed.

End Normalizer.

(** ** Window capture *)

Section Window.
Variable P : Platform.

(** C9.  A capture call, of a screen or of a window, never hangs and takes
    at most 15000 ms on the clock, whatever the child process does. *)
Theorem capture_calls_are_bounded :
  (forall (screen : ScreenInfo) (st : State P),
      fst (captureSingleScreen P screen st) <> Hang
      /\ clock (snd (captureSingleScreen P screen st)) <= clock st + 15000)
  /\ (forall (title : string) (st : State P),
        fst (captureWindowByTitle P title st) <> Hang
        /\ clock (snd (captureWindowByTitle P title st)) <= clock st + 15000).
Proof.
  split.
  - intros screen st. unfold captureSingleScreen.
    destruct (runPowerShell_run P (ScreenScript screen) st) as (o & w' & d & E & Ho & Hd).
    rewrite E. cbn. split; [exact Ho | lia].
  - intros title st. unfold captureWindowByTitle.
    destruct (runPowerShell_run P (WindowScript (replace_squote title)) st)
      as (o & w' & d & E & Ho & Hd).
    rewrite E. cbn. split; [exact Ho | lia].
Qed.

End Window.

(** ** The tool handler *)

Section Handler.
Variable P : Platform.
Local Open Scope list_scope.

Lemma grows_refl (Q : Event P -> Prop) (st : State P) : grows Q st st.
Proof. exists []. split; [reflexivity | constructor]. Qed.








End Handler.

(** ** The title in the script text *)

(** A title of letters stays inside the message literal. *)
Example notepad_stays_in_message_literal :
  scan_dq (message_onwards (replace_squote "Notepad"))
  = Some ("Window not found: Notepad", script_tail).
Proof. reflexivity. Qed.

(** C2.  The escaping leaves a double quote as it is, and the title is also
    spliced into the double-quoted message of [Write-Error]: for the title
    [";calc;"] (with its quotes) that literal ends at the title's first
    quote, with the value [Window not found: ], and the rest of the title is
    read as statements of the script. *)
Theorem title_escapes_message_literal :
  replace_squote injecting_title = injecting_title
  /\ script_text (WindowScript (replace_squote injecting_title))
     = script_head ++ String squote EmptyString
       ++ "*" ++ injecting_title ++ "*" ++ String squote EmptyString
       ++ script_filter_rest ++ dq ++ message_onwards injecting_title
  /\ scan_dq (message_onwards (replace_squote injecting_title))
     = Some ("Window not found: ", ";calc;" ++ dq ++ dq ++ script_tail)
  /\ ~ message_literal_intact (replace_squote injecting_title).
Proof.
  split; [reflexivity|]. split; [reflexivity|].
  assert (E : scan_dq (message_onwards (replace_squote injecting_title))
              = Some ("Window not found: ", ";calc;" ++ dq ++ dq ++ script_tail))
    by reflexivity.
  split; [exact E|].
  intros (value & H). rewrite E in H. vm_compute in H. discriminate H.
Qed.

(** ** Runs on the simulated platform *)

Section OnSim.
Import Sim.
Local Open Scope list_scope.

Lemma sim_resize_to_width : resize_to_width Sim.platform.
Proof.
  intros buf out targetWidth w Hmd Hlt Hres.
  cbn in Hmd, Hres |- *. inversion Hmd; subst w. unfold resize_png in Hres.
  destruct (Z.leb_spec targetWidth 0); [discriminate|].
  destruct (Z.leb_spec (pic_width buf) targetWidth); [lia|].
  inversion Hres; reflexivity.
Qed.

(** Scenario 2 of the specification: monitors at (-1920,0,1920,1080) and
    (0,0,2560,1440) give a canvas of 4480 x 1440 with the layers at (0,0)
    and (1920,0). *)
Example two_monitors_run :
  captureAllScreens platform (start platform two_monitors)
  = (Return (mkPicture PNG 4480 1440),
     @mkState platform (step two_monitors) 300
       [EvSharpCompositePng (Num 4480) (Num 1440)
          [@mkLayer platform (mkPicture PNG 1920 1080) (Num 0) (Num 0);
           @mkLayer platform (mkPicture PNG 2560 1440) (Num 1920) (Num 0)];
        capture_event platform main_monitor;
        capture_event platform left_monitor;
        EvGetScreenLayout]).
Proof. reflexivity. Qed.

(** Scenario 1: monitors at (0,0,1920,1080) and (1920,0,1920,1080) give a
    canvas of 3840 x 1080 with the second layer at (1920,0). *)
Example side_by_side_run :
  log (snd (captureAllScreens platform
              (start platform
                 (mkSimWorld [mkScreenInfo 0 0 1920 1080;
                              mkScreenInfo 1920 0 1920 1080] [] []))))
  = [EvSharpCompositePng (Num 3840) (Num 1080)
       [@mkLayer platform (mkPicture PNG 1920 1080) (Num 0) (Num 0);
        @mkLayer platform (mkPicture PNG 1920 1080) (Num 1920) (Num 0)];
     capture_event platform (mkScreenInfo 1920 0 1920 1080);
     capture_event platform (mkScreenInfo 0 0 1920 1080);
     EvGetScreenLayout].
Proof. reflexivity. Qed.

(** Scenario 3: a single monitor 3840 wide comes back 2560 wide. *)
Example wide_monitor_is_downscaled :
  fst (take_screenshot platform None
         (start platform (mkSimWorld [mkScreenInfo 0 0 3840 2160] [] [])))
  = Return (@ImageContent platform (mkPicture PNG 2560 1440) "image/png").
Proof. reflexivity. Qed.

(** Scenario 4: no window of that title. *)
Example no_such_window :
  fst (take_screenshot platform (Some "Paint") (start platform two_monitors))
  = Return (ErrorText (ExecFailed 1 "Window not found: Paint")).
Proof. reflexivity. Qed.

(** Without a timeout, [execSync] waits forever for a child that does not
    exit. *)
Example execSync_without_timeout_hangs :
  fst (execSync platform (AllScreens platform) None
         (start platform (mkSimWorld [main_monitor] [] [None])))
  = Hang.
Proof. reflexivity. Qed.

(** The pattern is a wildcard pattern: the title [?] selects a window whose
    title holds no question mark. *)
Example question_mark_matches_any_title :
  fst (take_screenshot platform (Some "?") (start platform two_monitors))
  = Return (@ImageContent platform (mkPicture PNG 800 600) "image/png").
Proof. reflexivity. Qed.

End OnSim.

Lemma single_screen_is_its_capture_witness :
  getScreenLayout Sim.platform (start Sim.platform Sim.one_monitor)
  = (Return [Sim.main_monitor],
     snd (getScreenLayout Sim.platform (start Sim.platform Sim.one_monitor)))
  /\ captureAllScreens Sim.platform (start Sim.platform Sim.one_monitor)
     = captureSingleScreen Sim.platform Sim.main_monitor
         (snd (getScreenLayout Sim.platform (start Sim.platform Sim.one_monitor))).
Proof.
  split; [reflexivity|].
  apply (single_screen_is_its_capture Sim.platform Sim.one_monitor Sim.main_monitor
           (snd (getScreenLayout Sim.platform (start Sim.platform Sim.one_monitor)))).
  reflexivity.
Defined.

(** C3 as the specification words it fails on scenario 5: of three
    monitors the second capture times out, and the third monitor is never
    captured. *)
Lemma failure_isolation_counterexample :
  ~ failure_isolated Sim.platform Sim.second_capture_stalls.
Proof.
  intros H.
  pose (st0 := start Sim.platform Sim.second_capture_stalls).
  pose (st1 := snd (getScreenLayout Sim.platform st0)).
  pose (sti := snd (mapM Sim.platform (captureSingleScreen Sim.platform)
                      [Sim.left_monitor] st1)).
  pose (sti' := snd (captureSingleScreen Sim.platform Sim.main_monitor sti)).
  specialize (H [Sim.left_monitor; Sim.main_monitor; Sim.third_monitor]
                [Sim.left_monitor] [] Sim.main_monitor Sim.third_monitor
                st1 sti sti' [Sim.mkPicture Sim.PNG 1920 1080] (ExecTimedOut 15000)
                eq_refl eq_refl eq_refl eq_refl).
  unfold attempted in H. vm_compute in H.
  destruct H as [H | [H | [H | []]]]; discriminate H.
Qed.

Lemma capture_failure_ends_request_witness :
  let st0 := start Sim.platform Sim.second_capture_stalls in
  let st1 := snd (getScreenLayout Sim.platform st0) in
  let sti := snd (mapM Sim.platform (captureSingleScreen Sim.platform)
                    [Sim.left_monitor] st1) in
  let sti' := snd (captureSingleScreen Sim.platform Sim.main_monitor sti) in
  getScreenLayout Sim.platform st0
  = (Return [Sim.left_monitor; Sim.main_monitor; Sim.third_monitor], st1)
  /\ mapM Sim.platform (captureSingleScreen Sim.platform) [Sim.left_monitor] st1
     = (Return [Sim.mkPicture Sim.PNG 1920 1080], sti)
  /\ captureSingleScreen Sim.platform Sim.main_monitor sti
     = (Throw (ExecTimedOut 15000), sti')
  /\ captureAllScreens Sim.platform st0 = (Throw (ExecTimedOut 15000), sti')
  /\ log sti' = [capture_event Sim.platform Sim.main_monitor;
                 capture_event Sim.platform Sim.left_monitor;
                 EvGetScreenLayout]
  /\ ~ attempted Sim.third_monitor sti'.
Proof.
  intros st0 st1 sti sti'.
  split; [reflexivity|]. split; [reflexivity|]. split; [reflexivity|].
  destruct (capture_failure_ends_request Sim.platform Sim.second_capture_stalls
              [Sim.left_monitor; Sim.main_monitor; Sim.third_monitor]
              [Sim.left_monitor] [Sim.third_monitor] Sim.main_monitor
              st1 sti sti' [Sim.mkPicture Sim.PNG 1920 1080] (ExecTimedOut 15000)
              eq_refl eq_refl eq_refl eq_refl) as (Hrun & Hlog & Hrest).
  split; [exact Hrun|]. split; [exact Hlog|].
  apply Hrest. simpl. intros [H | [H | []]]; discriminate H.
Defined.


(** C7 as the specification words it fails on the picture of a window
    800 wide: the normalizer returns it, and no encoding step was run. *)
Lemma always_reencodes_counterexample :
  ~ always_reencodes Sim.platform (Sim.mkPicture Sim.PNG 800 600) Sim.one_monitor.
Proof.
  intros H.
  specialize (H (Sim.mkPicture Sim.PNG 800 600)
                (snd (resizeImage Sim.platform (Sim.mkPicture Sim.PNG 800 600)
                        default_targetWidth (start Sim.platform Sim.one_monitor)))
                eq_refl).
  destruct H as (buf & targetWidth & Hin). vm_compute in Hin.
  destruct Hin as [Hin | []]; discriminate Hin.
Qed.

(** ** Reading the layout *)

Section Layout.
Local Open Scope list_scope.

Lemma all_chars_app (test : ascii -> bool) (a b : string) :
  all_chars test (a ++ b)%string = all_chars test a && all_chars test b.
Proof.
  induction a as [|c a IH]; [reflexivity|]. cbn. now rewrite IH, andb_assoc.
Qed.

Lemma all_chars_impl (p q : ascii -> bool) (s : string) :
  (forall c, p c = true -> q c = true) ->
  all_chars p s = true -> all_chars q s = true.
Proof.
  intros Hpq. induction s as [|c s IH]; [reflexivity|]. cbn.
  intros H. apply andb_prop in H. destruct H as [Hc Hs].
  now rewrite (Hpq _ Hc), IH.
Qed.

(** *** Printed integers *)

Lemma digits_are_int_chars (d : Decimal.uint) :
  all_chars is_int_char (NilEmpty.string_of_uint d) = true.
Proof. induction d; cbn; auto. Qed.

Lemma printed_uint_chars (d : Decimal.uint) :
  all_chars is_int_char (NilZero.string_of_uint d) = true
  /\ NilZero.string_of_uint d <> EmptyString.
Proof.
  destruct d; (split; [|discriminate]);
    try reflexivity;
    cbn [NilZero.string_of_uint NilEmpty.string_of_uint all_chars];
    rewrite digits_are_int_chars; reflexivity.
Qed.

Lemma js_string_of_int_chars (z : Z) :
  all_chars is_int_char (js_string_of_int z) = true
  /\ js_string_of_int z <> EmptyString.
Proof.
  unfold js_string_of_int.
  destruct (Z.to_int z) as [d | d]; cbn [NilZero.string_of_int].
  - apply printed_uint_chars.
  - split; [|discriminate]. cbn [all_chars].
    now rewrite (proj1 (printed_uint_chars d)).
Qed.

Lemma to_int_not_nil (z : Z) :
  Z.to_int z <> Decimal.Pos Decimal.Nil /\ Z.to_int z <> Decimal.Neg Decimal.Nil.
Proof.
  destruct z as [|p|p]; cbn; split; try discriminate;
    intros H; injection H as H; now apply DecimalPos.Unsigned.to_uint_nonnil in H.
Qed.

(** *** Trimming *)

Lemma trimStart_keeps (c : ascii) (s : string) :
  is_js_space c = false -> trimStart (String c s) = String c s.
Proof. intros H. cbn [trimStart]. now rewrite H. Qed.

Lemma trimStart_spaces (s : string) :
  all_chars is_js_space s = true -> trimStart s = EmptyString.
Proof.
  induction s as [|c s IH]; [reflexivity|]. cbn [trimStart trimEnd all_chars]. intros H.
  apply andb_prop in H. destruct H as [Hc Hs]. rewrite Hc. now apply IH.
Qed.

Lemma trimEnd_spaces (s : string) :
  all_chars is_js_space s = true -> trimEnd s = EmptyString.
Proof.
  induction s as [|c s IH]; [reflexivity|]. cbn [trimStart trimEnd all_chars]. intros H.
  apply andb_prop in H. destruct H as [Hc Hs]. now rewrite (IH Hs), Hc.
Qed.

Lemma trimEnd_app_spaces (s t : string) :
  all_chars is_js_space t = true -> trimEnd (s ++ t)%string = trimEnd s.
Proof.
  intros Ht. induction s as [|c s IH]; cbn [append trimEnd].
  - now apply trimEnd_spaces.
  - now rewrite IH.
Qed.

Lemma trimEnd_app_keep (s t : string) :
  trimEnd t <> EmptyString -> trimEnd (s ++ t)%string = (s ++ trimEnd t)%string.
Proof.
  intros Ht. induction s as [|c s IH]; [reflexivity|]. cbn [append trimEnd]. rewrite IH.
  destruct (s ++ trimEnd t)%string eqn:E; [|reflexivity].
  destruct s; cbn in E; [contradiction | discriminate].
Qed.

Lemma trimEnd_no_space (s : string) :
  all_chars (fun c => negb (is_js_space c)) s = true -> trimEnd s = s.
Proof.
  induction s as [|c s IH]; [reflexivity|]. cbn [trimStart trimEnd all_chars]. intros H.
  apply andb_prop in H. destruct H as [Hc Hs]. rewrite (IH Hs).
  apply negb_true_iff in Hc. rewrite Hc. now destruct s.
Qed.

Lemma int_char_not_space (c : ascii) :
  is_int_char c = true -> negb (is_js_space c) = true.
Proof.
  destruct c as [[|] [|] [|] [|] [|] [|] [|] [|]]; cbv; intros H;
    reflexivity || discriminate H.
Qed.

Lemma line_char_is_plain (c : ascii) :
  is_line_char c = true ->
  is_js_space c = false /\ Ascii.eqb c lf = false /\ Ascii.eqb c cr = false.
Proof.
  destruct c as [[|] [|] [|] [|] [|] [|] [|] [|]]; cbv; intros H;
    (repeat split; reflexivity) || discriminate H.
Qed.

Lemma int_char_is_no_comma (c : ascii) :
  is_int_char c = true -> Ascii.eqb c ","%char = false /\ Ascii.eqb c "+"%char = false.
Proof.
  destruct c as [[|] [|] [|] [|] [|] [|] [|] [|]]; cbv; intros H;
    (split; reflexivity) || discriminate H.
Qed.

Lemma trimStart_no_space (s : string) :
  all_chars (fun c => negb (is_js_space c)) s = true -> trimStart s = s.
Proof.
  destruct s as [|c s]; [reflexivity|]. cbn [all_chars]. intros H.
  apply andb_prop in H. destruct H as [Hc _]. apply negb_true_iff in Hc.
  now apply trimStart_keeps.
Qed.

Lemma string_app_empty (s : string) : (s ++ EmptyString)%string = s.
Proof. induction s as [|c s IH]; [reflexivity|]. cbn. now rewrite IH. Qed.

Lemma string_app_assoc (a b c : string) :
  ((a ++ b) ++ c)%string = (a ++ b ++ c)%string.
Proof. induction a as [|k a IH]; [reflexivity|]. cbn. now rewrite IH. Qed.

(** *** [Number] on a printed integer *)

Lemma Number_printed (z : Z) :
  Z.abs z <= max_safe -> Number (js_string_of_int z) = JsInt z.
Proof.
  intros Hsafe. destruct (js_string_of_int_chars z) as [Hchars Hne].
  assert (Hnospace : all_chars (fun c => negb (is_js_space c)) (js_string_of_int z) = true)
    by (revert Hchars; apply all_chars_impl, int_char_not_space).
  assert (Hread : NilZero.int_of_string (js_string_of_int z) = Some (Z.to_int z))
    by (destruct (to_int_not_nil z); now apply NilZero.isi).
  unfold Number, js_trim. rewrite (trimStart_no_space _ Hnospace), (trimEnd_no_space _ Hnospace).
  destruct (js_string_of_int z) as [|c rest] eqn:E; [congruence|].
  cbn [all_chars] in Hchars. apply andb_prop in Hchars. destruct Hchars as [Hc _].
  destruct (int_char_is_no_comma c Hc) as [_ Hplus]. rewrite Hplus, Hread.
  cbn [option_map]. rewrite DecimalZ.of_to.
  apply Z.leb_le in Hsafe. rewrite Hsafe.
  destruct z as [|p|p].
  - cbv in E. injection E as <- _. reflexivity.
  - now rewrite andb_false_r.
  - now rewrite andb_false_r.
Qed.

(** *** Splitting *)

Lemma push_char_not_nil (c : ascii) (pieces : list string) :
  push_char c pieces <> [].
Proof. destruct pieces; discriminate. Qed.

Lemma split_lines_not_nil (s : string) : split_lines s <> [].
Proof.
  destruct s as [|c s]; [discriminate|]. cbn [split_lines].
  destruct (Ascii.eqb c lf); [discriminate|].
  destruct (Ascii.eqb c cr); [|apply push_char_not_nil].
  destruct s as [|c2 s]; [apply push_char_not_nil|].
  destruct (Ascii.eqb c2 lf); [discriminate | apply push_char_not_nil].
Qed.

Lemma split_comma_not_nil (s : string) : split_comma s <> [].
Proof.
  destruct s as [|c s]; [discriminate|]. cbn [split_comma].
  destruct (Ascii.eqb c ","%char); [discriminate | apply push_char_not_nil].
Qed.

Lemma split_lines_plain (l t : string) :
  all_chars is_line_char l = true ->
  split_lines (l ++ t)%string
  = match split_lines t with
    | piece :: rest => (l ++ piece)%string :: rest
    | [] => [l]
    end.
Proof.
  intros H. induction l as [|c l IH].
  - cbn [append]. pose proof (split_lines_not_nil t).
    now destruct (split_lines t).
  - cbn [all_chars] in H. apply andb_prop in H. destruct H as [Hc Hl].
    destruct (line_char_is_plain c Hc) as (_ & Hlf & Hcr).
    cbn [append split_lines]. rewrite Hlf, Hcr.
    assert (E : split_lines (l ++ t)%string
                = match split_lines t with
                  | piece :: rest => (l ++ piece)%string :: rest
                  | [] => [l]
                  end) by auto.
    destruct (l ++ t)%string eqn:Elt; rewrite E; now destruct (split_lines t).
Qed.

Lemma split_lines_eol (eol t : string) :
  eol = LF \/ eol = CRLF ->
  split_lines (eol ++ t)%string = EmptyString :: split_lines t.
Proof. intros [-> | ->]; reflexivity. Qed.

Lemma split_comma_plain (f t : string) :
  all_chars is_int_char f = true ->
  split_comma (f ++ t)%string
  = match split_comma t with
    | piece :: rest => (f ++ piece)%string :: rest
    | [] => [f]
    end.
Proof.
  intros H. induction f as [|c f IH].
  - cbn [append]. pose proof (split_comma_not_nil t).
    now destruct (split_comma t).
  - cbn [all_chars] in H. apply andb_prop in H. destruct H as [Hc Hf].
    destruct (int_char_is_no_comma c Hc) as [Hcomma _].
    cbn [append split_comma]. rewrite Hcomma, (IH Hf).
    now destruct (split_comma t).
Qed.

(** A printed line splits into its four numbers. *)
Lemma split_comma_line (s : ScreenInfo) :
  split_comma (layout_line s)
  = [js_string_of_int (x s); js_string_of_int (y s);
     js_string_of_int (width s); js_string_of_int (height s)].
Proof.
  unfold layout_line.
  rewrite split_comma_plain by apply js_string_of_int_chars.
  cbn [append split_comma]. change (Ascii.eqb ","%char ","%char) with true. cbv iota.
  rewrite split_comma_plain by apply js_string_of_int_chars.
  cbn [append split_comma]. change (Ascii.eqb ","%char ","%char) with true. cbv iota.
  rewrite split_comma_plain by apply js_string_of_int_chars.
  cbn [append split_comma]. change (Ascii.eqb ","%char ","%char) with true. cbv iota.
  rewrite <- (string_app_empty (js_string_of_int (height s))) at 1.
  rewrite split_comma_plain by apply js_string_of_int_chars.
  cbn [split_comma]. now rewrite !string_app_empty.
Qed.

Lemma parse_printed_line (s : ScreenInfo) :
  safe_screen s -> parse_line (layout_line s) = raw_screen s.
Proof.
  intros (Hx & Hy & Hw & Hh). unfold parse_line. rewrite split_comma_line.
  cbn [map nth]. now rewrite !Number_printed.
Qed.

Lemma layout_line_chars (s : ScreenInfo) :
  all_chars is_line_char (layout_line s) = true
  /\ exists c rest, layout_line s = String c rest /\ is_line_char c = true.
Proof.
  assert (Hint : forall z, all_chars is_line_char (js_string_of_int z) = true).
  { intros z. apply (all_chars_impl is_int_char); [|apply js_string_of_int_chars].
    intros c Hc. unfold is_line_char. now rewrite Hc. }
  assert (Hall : all_chars is_line_char (layout_line s) = true).
  { unfold layout_line. rewrite !all_chars_app, !Hint. reflexivity. }
  split; [exact Hall|].
  destruct (js_string_of_int_chars (x s)) as [_ Hne].
  unfold layout_line in *. destruct (js_string_of_int (x s)) as [|c rest]; [congruence|].
  exists c. eexists. split; [reflexivity|].
  cbn [append all_chars] in Hall. now apply andb_prop in Hall.
Qed.

(** *** The whole output *)

Lemma layout_output_joined (eol : string) (screens : list ScreenInfo) :
  screens <> [] ->
  layout_output eol screens = (layout_joined eol screens ++ eol)%string.
Proof.
  induction screens as [|s rest IH]; [congruence | intros _].
  destruct rest as [|s' rest].
  - cbn. now rewrite string_app_empty.
  - change (layout_output eol (s :: s' :: rest))
      with (layout_line s ++ eol ++ layout_output eol (s' :: rest))%string.
    change (layout_joined eol (s :: s' :: rest))
      with (layout_line s ++ eol ++ layout_joined eol (s' :: rest))%string.
    rewrite IH by discriminate.
    now rewrite !string_app_assoc.
Qed.

Lemma layout_joined_trimmed (eol : string) (screens : list ScreenInfo) :
  screens <> [] ->
  trimEnd (layout_joined eol screens) = layout_joined eol screens
  /\ exists c rest, layout_joined eol screens = String c rest
                    /\ is_line_char c = true.
Proof.
  induction screens as [|s rest IH]; [congruence | intros _].
  destruct (layout_line_chars s) as (Hall & c & tl & Es & Hc).
  destruct rest as [|s' rest].
  - cbn [layout_joined]. split; [|now exists c, tl].
    apply trimEnd_no_space. revert Hall. apply all_chars_impl.
    intros k Hk. destruct (line_char_is_plain k Hk) as (-> & _). reflexivity.
  - destruct IH as (IHt & c' & tl' & Ej & _); [discriminate|].
    change (layout_joined eol (s :: s' :: rest))
      with (layout_line s ++ eol ++ layout_joined eol (s' :: rest))%string.
    split.
    + rewrite trimEnd_app_keep.
      * rewrite trimEnd_app_keep; [now rewrite IHt | rewrite IHt, Ej; discriminate].
      * rewrite trimEnd_app_keep; rewrite IHt, Ej; [|discriminate].
        destruct eol; discriminate.
    + rewrite Es. exists c. eexists. split; [reflexivity | exact Hc].
Qed.

Lemma trim_layout_output (eol : string) (screens : list ScreenInfo) :
  all_chars is_js_space eol = true ->
  screens <> [] ->
  js_trim (layout_output eol screens) = layout_joined eol screens.
Proof.
  intros Heol Hne. rewrite (layout_output_joined _ _ Hne).
  destruct (layout_joined_trimmed eol screens Hne) as (Ht & c & rest & E & Hc).
  unfold js_trim. rewrite E. cbn [append].
  destruct (line_char_is_plain c Hc) as (Hsp & _).
  rewrite (trimStart_keeps _ _ Hsp).
  change (String c (rest ++ eol)%string) with (String c rest ++ eol)%string.
  rewrite (trimEnd_app_spaces _ _ Heol). now rewrite <- E.
Qed.

Lemma split_layout_joined (eol : string) (screens : list ScreenInfo) :
  eol = LF \/ eol = CRLF ->
  screens <> [] ->
  split_lines (layout_joined eol screens) = map layout_line screens.
Proof.
  intros Heol. induction screens as [|s rest IH]; [congruence | intros _].
  destruct (layout_line_chars s) as (Hall & _).
  destruct rest as [|s' rest].
  - cbn [layout_joined map].
    rewrite <- (string_app_empty (layout_line s)) at 1.
    rewrite (split_lines_plain _ _ Hall). cbn [split_lines].
    now rewrite string_app_empty.
  - change (layout_joined eol (s :: s' :: rest))
      with (layout_line s ++ eol ++ layout_joined eol (s' :: rest))%string.
    rewrite (split_lines_plain _ _ Hall).
    rewrite (split_lines_eol _ _ Heol), IH by discriminate.
    now rewrite string_app_empty.
Qed.

(** X1.  Whatever the layout query prints, [getScreenLayout] reads at least
    one screen from it; printed text that is empty or all white space is
    read as one screen with [x] 0 and the other three fields undefined,
    which is not a [ScreenInfo] of four numbers. *)
Theorem layout_is_never_empty :
  (forall result : string, (1 <= List.length (parseLayout result))%nat)
  /\ (forall result : string,
        all_chars is_js_space result = true ->
        parseLayout result = [phantom_screen]
        /\ read_screen phantom_screen = None).
Proof.
  split.
  - intros result. unfold parseLayout. rewrite length_map.
    pose proof (split_lines_not_nil (js_trim result)) as H.
    destruct (split_lines (js_trim result)); [congruence | cbn; lia].
  - intros result Hspace. split; [|reflexivity].
    unfold parseLayout, js_trim. rewrite (trimStart_spaces _ Hspace). reflexivity.
Qed.

(** X2.  The lines the layout query prints for one or more screens, each
    ended by a line feed or by carriage return and line feed, are read back
    by [getScreenLayout] as exactly those screens, in order, provided the
    coordinates are exact as doubles. *)
Theorem layout_round_trip (eol : string) (screens : list ScreenInfo) :
  eol = LF \/ eol = CRLF ->
  screens <> [] ->
  Forall safe_screen screens ->
  map read_screen (parseLayout (layout_output eol screens)) = map Some screens.
Proof.
  intros Heol Hne Hsafe.
  assert (Hsp : all_chars is_js_space eol = true) by (destruct Heol; subst; reflexivity).
  unfold parseLayout.
  rewrite (trim_layout_output _ _ Hsp Hne), (split_layout_joined _ _ Heol Hne).
  rewrite !map_map. apply map_ext_in. intros s Hs.
  rewrite parse_printed_line by (eapply Forall_forall; eauto).
  now destruct s.
Qed.

End Layout.

Lemma layout_round_trip_witness :
  (CRLF = LF \/ CRLF = CRLF)
  /\ [Sim.left_monitor; Sim.main_monitor] <> []
  /\ Forall safe_screen [Sim.left_monitor; Sim.main_monitor]
  /\ map read_screen
       (parseLayout (layout_output CRLF [Sim.left_monitor; Sim.main_monitor]))
     = map Some [Sim.left_monitor; Sim.main_monitor].
Proof.
  assert (Hsafe : Forall safe_screen [Sim.left_monitor; Sim.main_monitor])
    by (repeat constructor; cbn; unfold max_safe; lia).
  split; [now right|]. split; [discriminate|]. split; [exact Hsafe|].
  apply (layout_round_trip CRLF [Sim.left_monitor; Sim.main_monitor]);
    [now right | discriminate | exact Hsafe].
Defined.

(** ** The title in the two literals *)

Section Literals.

Lemma replace_squote_app (a b : string) :
  replace_squote (a ++ b) = replace_squote a ++ replace_squote b.
Proof.
  induction a as [|c a IH]; [reflexivity|]. cbn [append replace_squote].
  destruct (Ascii.eqb c squote); cbn [append]; now rewrite IH.
Qed.

Lemma replace_squote_plain (s : string) :
  all_chars dq_plain s = true -> all_chars dq_plain (replace_squote s) = true.
Proof.
  induction s as [|c s IH]; [reflexivity|]. cbn [all_chars replace_squote].
  intros H. apply andb_prop in H. destruct H as [Hc Hs].
  destruct (Ascii.eqb c squote); cbn [all_chars]; rewrite (IH Hs);
    [reflexivity | now rewrite Hc].
Qed.

Lemma replace_squote_starts_unquoted (s : string) :
  starts_unquoted s -> starts_unquoted (replace_squote s).
Proof.
  destruct s as [|c s]; [tauto|]. cbn [starts_unquoted replace_squote].
  intros Hc. destruct (Ascii.eqb c squote); [reflexivity | exact Hc].
Qed.

(** A run of plain characters, then a double quote, then text that does not
    go on with another double quote: the literal is that run. *)
Lemma scan_dq_plain (s after : string) :
  all_chars dq_plain s = true ->
  starts_unquoted after ->
  scan_dq (s ++ dq ++ after) = Some (s, after).
Proof.
  intros Hs Hafter. induction s as [|c s IH].
  - destruct after as [|c0 after]; [contradiction|].
    cbn [starts_unquoted] in Hafter. unfold dq. cbn [append scan_dq]. change (Ascii.eqb dquote dquote) with true. cbv iota.
    now rewrite Hafter.
  - cbn [all_chars] in Hs. apply andb_prop in Hs. destruct Hs as [Hc Hs].
    unfold dq_plain in Hc. apply andb_prop in Hc. destruct Hc as [Hc Hdollar].
    apply andb_prop in Hc. destruct Hc as [Hquote Htick].
    apply negb_true_iff in Hquote, Htick, Hdollar.
    cbn [append scan_dq]. rewrite Hquote, Htick, Hdollar.
    destruct (s ++ dq ++ after) eqn:E; rewrite (IH Hs); reflexivity.
Qed.

(** X7.  A title without double quote, backtick and dollar sign stays inside
    the message literal of the window script: PowerShell reads the literal
    as [Window not found: ] followed by the escaped title, and what follows
    the literal is the template's own text. *)
Theorem plain_title_stays_in_message (title : string) :
  all_chars dq_plain title = true ->
  scan_dq (message_onwards (replace_squote title))
  = Some ("Window not found: " ++ replace_squote title, script_tail).
Proof.
  intros Hplain. unfold message_onwards.
  rewrite <- (scan_dq_plain ("Window not found: " ++ replace_squote title) script_tail).
  - now rewrite string_app_assoc.
  - rewrite all_chars_app, (replace_squote_plain _ Hplain). reflexivity.
  - reflexivity.
Qed.

(** X8.  A double quote in the title ends the message literal of the window
    script: when the title is plain up to its first double quote and goes on
    after it with anything but another double quote, PowerShell reads the
    literal as [Window not found: ] and the title up to that quote, and the
    rest of the title as script text in front of the template's closing
    quote. *)
Theorem double_quote_ends_message (before after : string) :
  all_chars dq_plain before = true ->
  starts_unquoted after ->
  scan_dq (message_onwards (replace_squote (before ++ dq ++ after)))
  = Some ("Window not found: " ++ replace_squote before,
          replace_squote after ++ dq ++ script_tail).
Proof.
  intros Hplain Hafter. unfold message_onwards.
  rewrite !replace_squote_app. change (replace_squote dq) with dq.
  rewrite <- (scan_dq_plain ("Window not found: " ++ replace_squote before)
                (replace_squote after ++ dq ++ script_tail)).
  - now rewrite !string_app_assoc.
  - rewrite all_chars_app, (replace_squote_plain _ Hplain). reflexivity.
  - destruct after as [|c after]; [contradiction|].
    cbn [starts_unquoted] in Hafter. cbn [replace_squote].
    destruct (Ascii.eqb c squote); [reflexivity | exact Hafter].
Qed.




End Literals.

Lemma plain_title_stays_in_message_witness :
  all_chars dq_plain "Bob's files" = true
  /\ scan_dq (message_onwards (replace_squote "Bob's files"))
     = Some ("Window not found: " ++ replace_squote "Bob's files", script_tail).
Proof.
  split; [reflexivity|].
  apply (plain_title_stays_in_message "Bob's files"). reflexivity.
Defined.

Lemma double_quote_ends_message_witness :
  all_chars dq_plain "x" = true
  /\ starts_unquoted (";calc;" ++ dq)
  /\ scan_dq (message_onwards (replace_squote ("x" ++ dq ++ ";calc;" ++ dq)))
     = Some ("Window not found: " ++ replace_squote "x",
             replace_squote (";calc;" ++ dq) ++ dq ++ script_tail).
Proof.
  split; [reflexivity|]. split; [reflexivity|].
  apply (double_quote_ends_message "x" (";calc;" ++ dq)); reflexivity.
Defined.

(** ** Whole requests *)

Section Requests.
Variable P : Platform.
Local Open Scope list_scope.

Lemma getScreenLayout_run (st : State P) :
  exists o w' d,
    getScreenLayout P st
    = (o, mkState w' (clock st + d) (EvGetScreenLayout :: log st))
    /\ o <> Hang /\ d <= 10000.
Proof.
  unfold getScreenLayout, bind, emit.
  destruct (execSync_bounded P (AllScreens P) 10000
              (mkState (world st) (clock st) (EvGetScreenLayout :: log st)))
    as (o & w' & d & E & Ho & Hd).
  cbn [world clock log] in E.
  exists o, w', d. rewrite E.
  destruct o; [| |congruence]; repeat split; auto; discriminate.
Qed.

(** The capture loop waits at most 15000 ms per screen. *)
Lemma capture_loop_clock (minX minY : jsnum) (screens : list ScreenInfo) (st : State P) :
  clock (snd (mapM P (capture_at P minX minY) screens st))
  <= clock st + 15000 * Z.of_nat (List.length screens).
Proof.
  revert st; induction screens as [|s screens IH]; intros st.
  - cbn. lia.
  - cbn [mapM]. unfold bind at 1.
    destruct (capture_at_run P minX minY s st) as (o & w' & d & E & Ho & Hd & _).
    rewrite E. cbn [List.length]. rewrite Nat2Z.inj_succ.
    assert (Hn : 0 <= Z.of_nat (List.length screens)) by lia.
    destruct o as [c | e |]; [| cbn [snd clock]; lia | congruence].
    unfold bind at 1.
    specialize (IH (mkState w' (clock st + d) (capture_event P s :: log st))).
    cbn [clock] in IH.
    destruct (mapM P (capture_at P minX minY) screens _) as [[cs | e |] st2];
      unfold ret; cbn [snd] in IH |- *; lia.
Qed.

Lemma resizeImage_clock (buf : Buffer P) (targetWidth : Z) (st : State P) :
  clock (snd (resizeImage P buf targetWidth st)) = clock st
  /\ fst (resizeImage P buf targetWidth st) <> Hang.
Proof.
  unfold resizeImage, bind, emit, await, ret. cbn [world clock log].
  destruct (sharp_metadata P buf) as [metadata | e]; [|split; [reflexivity | discriminate]].
  destruct (too_wide metadata targetWidth); [|split; [reflexivity | discriminate]].
  cbn [world clock log].
  destruct (sharp_resize_png P buf targetWidth); split; reflexivity || discriminate.
Qed.

(** The all-screens capture returns or throws, and waits for the layout
    query and for one capture per screen at most. *)
Lemma captureAllScreens_clock (st : State P) :
  fst (captureAllScreens P st) <> Hang
  /\ match fst (getScreenLayout P st) with
     | Return screens =>
         clock (snd (captureAllScreens P st))
         <= clock st + 10000 + 15000 * Z.of_nat (List.length screens)
     | _ => clock (snd (captureAllScreens P st)) <= clock st + 10000
     end.
Proof.
  remember (captureAllScreens P st) as r eqn:Er.
  unfold captureAllScreens in Er. unfold bind at 1 in Er.
  destruct (getScreenLayout_run st) as (o & w1 & d1 & E & Ho & Hd).
  rewrite E in Er |- *. cbn [fst].
  destruct o as [screens | e |]; [| subst r; split; [discriminate | cbn [snd clock]; lia]
                                  | congruence].
  set (st1 := mkState w1 (clock st + d1) (EvGetScreenLayout :: log st)) in *.
  assert (Hmulti : forall minX minY tw th,
    let r := bind P (mapM P (capture_at P minX minY) screens) (fun captures =>
             bind P (emit P (EvSharpCompositePng tw th captures)) (fun _ =>
             await P (sharp_composite_png P tw th (map (sharp_layer P) captures))))
             st1 in
    fst r <> Hang
    /\ clock (snd r) <= clock st + 10000 + 15000 * Z.of_nat (List.length screens)).
  { intros minX minY tw th.
    pose proof (capture_loop_clock minX minY screens st1) as Hclock.
    destruct (capture_loop P minX minY screens st1) as (o & st2 & n & E2 & Ho2 & _).
    cbv zeta. unfold bind at 1 3. rewrite E2 in *. cbn [snd] in Hclock.
    subst st1. cbn [clock] in Hclock.
    destruct o as [captures | e |]; [| split; [discriminate | cbn [snd]; lia] | congruence].
    unfold bind, emit, await. cbn [world clock log].
    destruct (sharp_composite_png P _ _ _); cbn [fst snd clock];
      (split; [discriminate | lia]). }
  destruct screens as [|a [|b l]]; subst r; [apply Hmulti | | apply Hmulti].
  unfold captureSingleScreen.
  destruct (runPowerShell_run P (ScreenScript a) st1) as (o & w' & d & E2 & Ho2 & Hd2).
  rewrite E2. subst st1. cbn [fst snd clock List.length]. split; [exact Ho2 | lia].
Qed.

(** X3.  The tool handler always answers: whatever the title and whatever
    the platform does, the request ends with a response (an image or an
    error text), never with an exception and never hanging. *)
Theorem take_screenshot_always_answers (window_title : option string) (st : State P) :
  exists response st', take_screenshot P window_title st = (Return response, st').
Proof.
  unfold take_screenshot, try_catch.
  set (capture := match window_title with
                  | Some (String _ _ as title) => captureWindowByTitle P title
                  | _ => captureAllScreens P
                  end).
  assert (Hcap : fst (capture st) <> Hang).
  { subst capture. destruct window_title as [[|c title]|];
      try apply captureAllScreens_clock.
    unfold captureWindowByTitle.
    destruct (runPowerShell_run P (WindowScript (replace_squote (String c title))) st)
      as (o & w' & d & E & Ho & _).
    now rewrite E. }
  unfold bind at 1. destruct (capture st) as [[buf | e |] st1]; cbn [fst] in Hcap.
  - unfold bind at 1.
    destruct (resizeImage_clock buf default_targetWidth st1) as [_ Hres].
    destruct (resizeImage P buf default_targetWidth st1) as [[out | e |] st2];
      cbn [fst] in Hres; [| |congruence]; eexists _, _; reflexivity.
  - eexists _, _; reflexivity.
  - congruence.
Qed.

(** X4.  The time a request spends waiting for child processes is bounded:
    at most 15000 ms on the window path, and on the all-screens path at most
    10000 ms for the layout query plus 15000 ms for each screen it lists. *)
Theorem request_time_is_bounded (w : World P) :
  (forall c title,
      clock (snd (take_screenshot P (Some (String c title)) (start P w))) <= 15000)
  /\ match fst (getScreenLayout P (start P w)) with
     | Return screens =>
         clock (snd (take_screenshot P None (start P w)))
         <= 10000 + 15000 * Z.of_nat (List.length screens)
     | _ => clock (snd (take_screenshot P None (start P w))) <= 10000
     end.
Proof.
  assert (Hwrap : forall (capture : M P (Buffer P)) st,
    clock (snd (try_catch P
      (bind P capture (fun pngBuffer =>
       bind P (resizeImage P pngBuffer default_targetWidth) (fun pngBuffer =>
       ret P (ImageContent pngBuffer "image/png"))))
      (fun error => ret P (ErrorText error)) st))
    = clock (snd (capture st))).
  { intros capture st. unfold try_catch. unfold bind at 1.
    destruct (capture st) as [[buf | e |] st1]; try reflexivity.
    unfold bind at 1.
    destruct (resizeImage_clock buf default_targetWidth st1) as [Hclock _].
    destruct (resizeImage P buf default_targetWidth st1) as [[out | e |] st2];
      cbn [snd] in Hclock |- *; exact Hclock. }
  split.
  - intros c title. unfold take_screenshot. rewrite Hwrap.
    unfold captureWindowByTitle.
    destruct (runPowerShell_run P (WindowScript (replace_squote (String c title)))
                (start P w)) as (o & w' & d & E & _ & Hd).
    rewrite E. cbn. lia.
  - unfold take_screenshot. rewrite Hwrap.
    destruct (captureAllScreens_clock (start P w)) as [_ H]. cbn [start clock] in H.
    destruct (fst (getScreenLayout P (start P w))); cbn [start clock]; lia.
Qed.





(** X10.  Normalizing twice is normalizing once: given that sharp's resize
    yields the width it is asked for, what the normalizer returns is returned
    unchanged when it is normalized again with the same ceiling. *)
Theorem normalizer_is_idempotent
        (buf out : Buffer P) (targetWidth : Z) (st st' st2 : State P) :
  resize_to_width P ->
  resizeImage P buf targetWidth st = (Return out, st') ->
  fst (resizeImage P out targetWidth st2) = Return out.
Proof.
  intros Hlaw Hrun.
  destruct (resizeImage_run P _ _ _ _ _ Hrun) as (metadata & Hmd & _ & _ & Hcase).
  assert (Hagain : exists md', sharp_metadata P out = Ok md'
                               /\ too_wide md' targetWidth = false).
  { destruct (too_wide metadata targetWidth) eqn:Hwide.
    - destruct Hcase as [Hres _]. destruct metadata as [[w0|]]; [|discriminate].
      unfold too_wide in Hwide. cbn [md_width] in Hwide.
      apply andb_prop in Hwide. destruct Hwide as [_ Hlt]. apply Z.ltb_lt in Hlt.
      exists (mkMetadata (Some targetWidth)). split; [exact (Hlaw _ _ _ _ Hmd Hlt Hres)|].
      unfold too_wide. cbn [md_width]. rewrite Z.ltb_irrefl. apply andb_false_r.
    - destruct Hcase as [-> _]. now exists metadata. }
  destruct Hagain as (md' & Hmd' & Hnarrow).
  unfold resizeImage, bind, emit, await, ret. cbn [world clock log].
  now rewrite Hmd', Hnarrow.
Qed.

(** The width of what the normalizer returns, read off its two ways to
    return. *)
Lemma normalized_width (buf out : Buffer P) (targetWidth w' : Z) (st st' : State P) :
  resize_to_width P ->
  0 <= targetWidth ->
  resizeImage P buf targetWidth st = (Return out, st') ->
  sharp_metadata P out = Ok (mkMetadata (Some w')) ->
  w' <= targetWidth.
Proof.
  intros Hlaw Hpos Hrun Hout.
  destruct (resizeImage_run P _ _ _ _ _ Hrun) as (metadata & Hmd & _ & _ & Hcase).
  destruct (too_wide metadata targetWidth) eqn:Hwide.
  - destruct Hcase as [Hres _]. destruct metadata as [[w0|]]; [|discriminate].
    unfold too_wide in Hwide. cbn [md_width] in Hwide.
    apply andb_prop in Hwide. destruct Hwide as [_ Hlt]. apply Z.ltb_lt in Hlt.
    rewrite (Hlaw _ _ _ _ Hmd Hlt Hres) in Hout. inversion Hout. lia.
  - destruct Hcase as [-> _]. rewrite Hmd in Hout. inversion Hout; subst metadata.
    unfold too_wide in Hwide. cbn [md_width] in Hwide.
    destruct (Z.eqb_spec w' 0); [lia|]. cbn [negb andb] in Hwide.
    apply Z.ltb_ge in Hwide. exact Hwide.
Qed.

(** X11.  Every image the tool answers with is labelled [image/png] and,
    given that sharp's resize yields the width it is asked for, is at most
    2560 wide, on the window path as on the all-screens path. *)
Theorem answered_image_is_within_ceiling
        (window_title : option string) (st st' : State P)
        (data : Buffer P) (mimeType : string) :
  resize_to_width P ->
  take_screenshot P window_title st = (Return (ImageContent data mimeType), st') ->
  mimeType = "image/png"
  /\ forall w', sharp_metadata P data = Ok (mkMetadata (Some w')) -> w' <= 2560.
Proof.
  intros Hlaw. unfold take_screenshot, try_catch.
  set (capture := match window_title with
                  | Some (String _ _ as title) => captureWindowByTitle P title
                  | _ => captureAllScreens P
                  end).
  unfold bind at 1. destruct (capture st) as [[buf | e |] st1];
    [| unfold ret; intros H; discriminate H | intros H; discriminate H].
  unfold bind at 1.
  destruct (resizeImage P buf default_targetWidth st1) as [[out | e |] st2] eqn:Hres;
    unfold ret; intros H; inversion H; subst.
  split; [reflexivity|]. intros w' Hw'.
  assert (Hpos : 0 <= default_targetWidth) by (unfold default_targetWidth; lia).
  exact (normalized_width _ _ _ _ _ _ Hlaw Hpos Hres Hw').
Qed.

Lemma resizeImage_calls (buf : Buffer P) (targetWidth : Z) (st : State P) :
  grows normalizer_call st (snd (resizeImage P buf targetWidth st)).
Proof.
  unfold resizeImage, bind, emit, await, ret. cbn [world clock log].
  assert (G1 : grows normalizer_call st
                 (mkState (world st) (clock st) (EvSharpMetadata buf :: log st))).
  { exists [EvSharpMetadata buf]. split; [reflexivity|].
    constructor; [left; now exists buf | constructor]. }
  destruct (sharp_metadata P buf) as [metadata | e]; [|exact G1].
  destruct (too_wide metadata targetWidth); [|exact G1].
  cbn [world clock log].
  assert (G2 : forall o, grows normalizer_call st
                 (snd (o : Outcome (Buffer P),
                       mkState (world st) (clock st)
                         (EvSharpResizePng buf targetWidth
                          :: EvSharpMetadata buf :: log st)))).
  { intros o. exists [EvSharpResizePng buf targetWidth; EvSharpMetadata buf].
    split; [reflexivity|].
    constructor; [right; now exists buf, targetWidth|].
    constructor; [left; now exists buf | constructor]. }
  destruct (sharp_resize_png P buf targetWidth); apply G2.
Qed.

(** X12.  A request over any number of screens but one that returns an
    image has made these calls and no other: the layout query, one capture
    per screen in the order of the layout, and one composite of as many
    layers as there are screens, whose result is the image returned. *)
Theorem returning_request_calls
        (w : World P) (screens : list ScreenInfo) (st1 st' : State P) (buf : Buffer P) :
  getScreenLayout P (start P w) = (Return screens, st1) ->
  List.length screens <> 1%nat ->
  captureAllScreens P (start P w) = (Return buf, st') ->
  exists totalWidth totalHeight layers,
    log st' = EvSharpCompositePng totalWidth totalHeight layers
              :: rev (map (capture_event P) screens) ++ [EvGetScreenLayout]
    /\ List.length layers = List.length screens
    /\ sharp_composite_png P totalWidth totalHeight (map (sharp_layer P) layers)
       = Ok buf.
Proof.
  intros E Hlen Hrun.
  rewrite (captureAllScreens_multi P _ _ _ E Hlen) in Hrun. cbv zeta in Hrun.
  destruct (getScreenLayout_log P _ _ _ E) as [Hlog1 _]. cbn in Hlog1.
  set (minX := Math_min (map (fun s => Num (x s)) screens)) in *.
  set (minY := Math_min (map (fun s => Num (y s)) screens)) in *.
  destruct (capture_loop P minX minY screens st1)
    as (o & st2 & n & E2 & Ho & Hlog & Hall).
  unfold bind at 1 in Hrun. rewrite E2 in Hrun.
  destruct o as [captures | e |]; [| discriminate | discriminate].
  destruct (Hall captures eq_refl) as (Hn & HF & _). rewrite Hn, Hlog1 in Hlog.
  unfold bind, emit, await in Hrun. cbn [world clock log] in Hrun.
  destruct (sharp_composite_png P _ _ (map (sharp_layer P) captures)) as [b | e] eqn:Hsharp;
    [|discriminate].
  inversion Hrun; subst. eexists _, _, captures. cbn [log]. rewrite Hlog.
  split; [reflexivity|]. split; [|exact Hsharp].
  symmetry. eapply Forall2_length; eauto.
Qed.

(** X13.  A request with a non-empty title runs one child process, the
    window script for the escaped title, and after it nothing but the
    normalizer's requests to sharp: it never asks for the screen layout,
    never captures a screen and never composites. *)
Theorem window_path_calls (c : ascii) (title : string) (w : World P) :
  exists calls,
    log (snd (take_screenshot P (Some (String c title)) (start P w)))
    = calls ++ [EvRunPowerShell (WindowScript (replace_squote (String c title)))]
    /\ Forall normalizer_call calls.
Proof.
  unfold take_screenshot, try_catch. unfold bind at 1.
  unfold captureWindowByTitle.
  destruct (runPowerShell_run P (WindowScript (replace_squote (String c title)))
              (start P w)) as (o & w' & d & E & Ho & _).
  rewrite E. cbn [start log clock].
  destruct o as [buf | e |]; [| exists []; split; [reflexivity | constructor]
                              | congruence].
  unfold bind at 1.
  destruct (resizeImage_calls buf default_targetWidth
              (mkState w' (0 + d)
                 [EvRunPowerShell (WindowScript (replace_squote (String c title)))]))
    as (calls & Hlog & HF).
  cbn [log] in Hlog.
  destruct (resizeImage P buf default_targetWidth _) as [[out | e |] st2];
    cbn [snd] in Hlog |- *; unfold ret; cbn [snd]; exists calls; split; assumption.
Qed.

End Requests.

Lemma normalizer_is_idempotent_witness :
  resize_to_width Sim.platform
  /\ resizeImage Sim.platform (Sim.mkPicture Sim.PNG 3840 2160) 2560
       (start Sim.platform Sim.one_monitor)
     = (Return (Sim.mkPicture Sim.PNG 2560 1440),
        snd (resizeImage Sim.platform (Sim.mkPicture Sim.PNG 3840 2160) 2560
               (start Sim.platform Sim.one_monitor)))
  /\ fst (resizeImage Sim.platform (Sim.mkPicture Sim.PNG 2560 1440) 2560
            (start Sim.platform Sim.one_monitor))
     = Return (Sim.mkPicture Sim.PNG 2560 1440).
Proof.
  split; [exact sim_resize_to_width|]. split; [reflexivity|].
  apply (normalizer_is_idempotent Sim.platform
           (Sim.mkPicture Sim.PNG 3840 2160) (Sim.mkPicture Sim.PNG 2560 1440) 2560
           (start Sim.platform Sim.one_monitor)
           (snd (resizeImage Sim.platform (Sim.mkPicture Sim.PNG 3840 2160) 2560
                   (start Sim.platform Sim.one_monitor)))
           (start Sim.platform Sim.one_monitor)
           sim_resize_to_width).
  reflexivity.
Defined.

Lemma answered_image_is_within_ceiling_witness :
  resize_to_width Sim.platform
  /\ take_screenshot Sim.platform None (start Sim.platform Sim.two_monitors)
     = (Return (@ImageContent Sim.platform (Sim.mkPicture Sim.PNG 2560 823) "image/png"),
        snd (take_screenshot Sim.platform None (start Sim.platform Sim.two_monitors)))
  /\ forall w', sharp_metadata Sim.platform (Sim.mkPicture Sim.PNG 2560 823)
                = Ok (mkMetadata (Some w')) -> w' <= 2560.
Proof.
  split; [exact sim_resize_to_width|]. split; [reflexivity|].
  apply (answered_image_is_within_ceiling Sim.platform None
           (start Sim.platform Sim.two_monitors)
           (snd (take_screenshot Sim.platform None (start Sim.platform Sim.two_monitors)))
           (Sim.mkPicture Sim.PNG 2560 823) "image/png" sim_resize_to_width).
  reflexivity.
Defined.

Lemma returning_request_calls_witness :
  getScreenLayout Sim.platform (start Sim.platform Sim.two_monitors)
  = (Return [Sim.left_monitor; Sim.main_monitor],
     snd (getScreenLayout Sim.platform (start Sim.platform Sim.two_monitors)))
  /\ List.length [Sim.left_monitor; Sim.main_monitor] <> 1%nat
  /\ captureAllScreens Sim.platform (start Sim.platform Sim.two_monitors)
     = (Return (Sim.mkPicture Sim.PNG 4480 1440),
        snd (captureAllScreens Sim.platform (start Sim.platform Sim.two_monitors)))
  /\ exists totalWidth totalHeight layers,
       log (snd (captureAllScreens Sim.platform (start Sim.platform Sim.two_monitors)))
       = (EvSharpCompositePng totalWidth totalHeight layers
          :: rev (map (capture_event Sim.platform) [Sim.left_monitor; Sim.main_monitor])
          ++ [EvGetScreenLayout])%list
       /\ List.length layers = List.length [Sim.left_monitor; Sim.main_monitor]
       /\ sharp_composite_png Sim.platform totalWidth totalHeight
            (map (sharp_layer Sim.platform) layers)
          = Ok (Sim.mkPicture Sim.PNG 4480 1440).
Proof.
  split; [reflexivity|]. split; [discriminate|]. split; [reflexivity|].
  apply (returning_request_calls Sim.platform Sim.two_monitors
           [Sim.left_monitor; Sim.main_monitor]
           (snd (getScreenLayout Sim.platform (start Sim.platform Sim.two_monitors))));
    [reflexivity | discriminate | reflexivity].
Defined.

(** ** The command line and the bytes that come back *)

Section Transport.
Local Open Scope list_scope.

Lemma list_ind3 {A} (Q : list A -> Prop) :
  Q [] -> (forall a, Q [a]) -> (forall a b, Q [a; b]) ->
  (forall a b c l, Q l -> Q (a :: b :: c :: l)) ->
  forall l, Q l.
Proof.
  intros H0 H1 H2 H3.
  assert (H : forall n l, (List.length l <= n)%nat -> Q l).
  { induction n as [|n IH]; intros l Hl;
      destruct l as [|a [|b [|c l]]]; auto; cbn in Hl; try lia.
    apply H3, IH. lia. }
  intros l. now apply (H (List.length l)).
Qed.

(** Every number below 64 has a digit, which is a letter, a digit, [+] or
    [/], and stands for that number. *)
Lemma sextet_char_digit (b5 b4 b3 b2 b1 b0 : bool) :
  is_base64_char (sextet_char (six b5 b4 b3 b2 b1 b0)) = true
  /\ Ascii.eqb (sextet_char (six b5 b4 b3 b2 b1 b0)) "="%char = false
  /\ char_sextet (sextet_char (six b5 b4 b3 b2 b1 b0))
     = Some (six b5 b4 b3 b2 b1 b0).
Proof.
  destruct b5, b4, b3, b2, b1, b0; vm_compute; repeat split; reflexivity.
Qed.

Lemma base64_char_not_space (c : ascii) :
  is_base64_char c = true -> negb (is_js_space c) = true.
Proof.
  destruct c as [[|] [|] [|] [|] [|] [|] [|] [|]]; cbv; intros H;
    reflexivity || discriminate H.
Qed.

Lemma base64_chars (bytes : list ascii) :
  all_chars is_base64_char (base64 bytes) = true.
Proof.
  induction bytes as [| a | a b | a b c rest IH] using list_ind3.
  - reflexivity.
  - destruct a as [a0 a1 a2 a3 a4 a5 a6 a7]. cbn [base64 all_chars].
    rewrite (proj1 (sextet_char_digit a7 a6 a5 a4 a3 a2)),
            (proj1 (sextet_char_digit a1 a0 false false false false)).
    reflexivity.
  - destruct a as [a0 a1 a2 a3 a4 a5 a6 a7], b as [b0 b1 b2 b3 b4 b5 b6 b7].
    cbn [base64 all_chars].
    rewrite (proj1 (sextet_char_digit a7 a6 a5 a4 a3 a2)),
            (proj1 (sextet_char_digit a1 a0 b7 b6 b5 b4)),
            (proj1 (sextet_char_digit b3 b2 b1 b0 false false)).
    reflexivity.
  - destruct a as [a0 a1 a2 a3 a4 a5 a6 a7], b as [b0 b1 b2 b3 b4 b5 b6 b7],
             c as [c0 c1 c2 c3 c4 c5 c6 c7].
    cbn [base64 all_chars].
    rewrite (proj1 (sextet_char_digit a7 a6 a5 a4 a3 a2)),
            (proj1 (sextet_char_digit a1 a0 b7 b6 b5 b4)),
            (proj1 (sextet_char_digit b3 b2 b1 b0 c7 c6)),
            (proj1 (sextet_char_digit c5 c4 c3 c2 c1 c0)), IH.
    reflexivity.
Qed.

Lemma base64_decode_encode (bytes : list ascii) :
  base64_decode (base64 bytes) = Some bytes.
Proof.
  induction bytes as [| a | a b | a b c rest IH] using list_ind3.
  - reflexivity.
  - destruct a as [a0 a1 a2 a3 a4 a5 a6 a7]. cbn [base64 base64_decode].
    destruct (sextet_char_digit a7 a6 a5 a4 a3 a2) as (_ & _ & ->).
    destruct (sextet_char_digit a1 a0 false false false false) as (_ & _ & ->).
    reflexivity.
  - destruct a as [a0 a1 a2 a3 a4 a5 a6 a7], b as [b0 b1 b2 b3 b4 b5 b6 b7].
    cbn [base64 base64_decode].
    destruct (sextet_char_digit a7 a6 a5 a4 a3 a2) as (_ & _ & ->).
    destruct (sextet_char_digit a1 a0 b7 b6 b5 b4) as (_ & _ & ->).
    destruct (sextet_char_digit b3 b2 b1 b0 false false) as (_ & -> & ->).
    reflexivity.
  - destruct a as [a0 a1 a2 a3 a4 a5 a6 a7], b as [b0 b1 b2 b3 b4 b5 b6 b7],
             c as [c0 c1 c2 c3 c4 c5 c6 c7].
    cbn [base64 base64_decode].
    destruct (sextet_char_digit a7 a6 a5 a4 a3 a2) as (_ & _ & ->).
    destruct (sextet_char_digit a1 a0 b7 b6 b5 b4) as (_ & _ & ->).
    destruct (sextet_char_digit b3 b2 b1 b0 c7 c6) as (_ & -> & ->).
    destruct (sextet_char_digit c5 c4 c3 c2 c1 c0) as (_ & -> & ->).
    cbn [six]. now rewrite IH.
Qed.

Lemma utf16le_decode_encode (s : string) : utf16le_decode (utf16le s) = Some s.
Proof.
  induction s as [|c s IH]; [reflexivity|]. cbn [utf16le utf16le_decode].
  change (Ascii.eqb zero zero) with true. cbv iota. now rewrite IH.
Qed.

(** X14.  The command line [runPowerShell] hands to [execSync] consists of
    letters, digits, spaces and the characters [-], [+], [/] and [=] only,
    whatever the script text and so whatever the title: no character of the
    title reaches the shell that runs the command as it is. *)
Theorem command_line_is_plain (script : PSScript) :
  all_chars is_command_char (powershell_command (script_text script)) = true.
Proof.
  unfold powershell_command, encoded_script. rewrite all_chars_app.
  apply andb_true_intro. split; [reflexivity|].
  apply (all_chars_impl is_base64_char); [|apply base64_chars].
  intros c Hc. unfold is_command_char. now rewrite Hc.
Qed.

(** X15.  The encoded command decodes to the script: undoing the base64 and
    reading the bytes as UTF-16, little endian, as [-EncodedCommand] does,
    gives back exactly the script text [runPowerShell] was called with. *)
Theorem encoded_command_round_trip (script : string) :
  match base64_decode (encoded_script script) with
  | Some bytes => utf16le_decode bytes
  | None => None
  end = Some script.
Proof.
  unfold encoded_script. rewrite base64_decode_encode. apply utf16le_decode_encode.
Qed.

(** X16.  The picture comes back byte for byte: the base64 line a capture
    script prints for the bytes of its PNG, with white space after it, is
    trimmed and decoded by [runPowerShell] to exactly those bytes. *)
Theorem capture_output_round_trip (bytes : list ascii) (eol : string) :
  all_chars is_js_space eol = true ->
  base64_decode (js_trim (base64 bytes ++ eol)%string) = Some bytes.
Proof.
  intros Heol.
  assert (Hplain : all_chars (fun c => negb (is_js_space c)) (base64 bytes) = true).
  { apply (all_chars_impl is_base64_char); [apply base64_char_not_space|].
    apply base64_chars. }
  assert (Htrim : js_trim (base64 bytes ++ eol)%string = base64 bytes).
  { unfold js_trim. destruct (base64 bytes) as [|c rest] eqn:E.
    - cbn [append]. now rewrite (trimStart_spaces _ Heol).
    - cbn [all_chars] in Hplain. pose proof Hplain as Hall.
      apply andb_prop in Hplain. destruct Hplain as [Hc _].
      apply negb_true_iff in Hc. cbn [append]. rewrite (trimStart_keeps _ _ Hc).
      change (String c (rest ++ eol)%string) with (String c rest ++ eol)%string.
      rewrite (trimEnd_app_spaces _ _ Heol). now apply trimEnd_no_space. }
  rewrite Htrim. apply base64_decode_encode.
Qed.

End Transport.

Lemma capture_output_round_trip_witness :
  all_chars is_js_space CRLF = true
  /\ base64_decode (js_trim (base64 (list_ascii_of_string "PNG") ++ CRLF))
     = Some (list_ascii_of_string "PNG").
Proof.
  split; [reflexivity|].
  apply (capture_output_round_trip (list_ascii_of_string "PNG") CRLF). reflexivity.
Defined.

Lemma canvas_is_bounding_box_witness :
  let P := Sim.platform in
  let w := Sim.two_monitors in
  let screens := [Sim.left_monitor; Sim.main_monitor] in
  let st1 := snd (getScreenLayout P (start P w)) in
  getScreenLayout P (start P w) = (Return screens, st1)
  /\ (2 <= List.length screens)%nat
  /\ exists minX minY maxX maxY : Z,
       is_min minX (map x screens) /\ is_min minY (map y screens)
       /\ is_max maxX (map (fun s => x s + width s) screens)
       /\ is_max maxY (map (fun s => y s + height s) screens)
       /\ (forall bufs st2,
             mapM P (captureSingleScreen P) screens st1 = (Return bufs, st2) ->
             exists (layers : list (Buffer P * jsnum * jsnum)) (captures : list (Layer P)),
               captureAllScreens P (start P w)
               = (match sharp_composite_png P (Num (maxX - minX)) (Num (maxY - minY))
                          layers with
                  | Ok composite => Return composite
                  | Err e => Throw e
                  end,
                  mkState (world st2) (clock st2)
                    (EvSharpCompositePng (Num (maxX - minX)) (Num (maxY - minY)) captures
                     :: log st2))
               /\ map (fun layer => fst (fst layer)) layers = bufs)
       /\ (forall totalWidth totalHeight layers,
             In (EvSharpCompositePng totalWidth totalHeight layers)
                (log (snd (captureAllScreens P (start P w)))) ->
             totalWidth = Num (maxX - minX) /\ totalHeight = Num (maxY - minY))
       /\ (forall buf,
             fst (captureAllScreens P (start P w)) = Return buf ->
             exists layers,
               In (EvSharpCompositePng (Num (maxX - minX)) (Num (maxY - minY)) layers)
                  (log (snd (captureAllScreens P (start P w))))).
Proof.
  intros P w screens st1.
  split; [reflexivity|]. split; [simpl; lia|].
  apply (canvas_is_bounding_box P w screens st1); [reflexivity | simpl; lia].
Defined.

Lemma layers_placed_within_canvas_witness :
  let P := Sim.platform in
  let w := Sim.two_monitors in
  let screens := [Sim.left_monitor; Sim.main_monitor] in
  let st1 := snd (getScreenLayout P (start P w)) in
  getScreenLayout P (start P w) = (Return screens, st1)
  /\ (2 <= List.length screens)%nat
  /\ exists minX minY canvasWidth canvasHeight : Z,
       is_min minX (map x screens) /\ is_min minY (map y screens)
       /\ (forall bufs st2,
             mapM P (captureSingleScreen P) screens st1 = (Return bufs, st2) ->
             exists layers : list (Buffer P * jsnum * jsnum),
               fst (captureAllScreens P (start P w))
               = match sharp_composite_png P (Num canvasWidth) (Num canvasHeight)
                         layers with
                 | Ok composite => Return composite
                 | Err e => Throw e
                 end
               /\ map (fun layer => fst (fst layer)) layers = bufs
               /\ Forall2 (fun s layer =>
                             snd (fst layer) = Num (x s - minX)
                             /\ snd layer = Num (y s - minY)
                             /\ 0 <= x s - minX /\ 0 <= y s - minY
                             /\ x s - minX + width s <= canvasWidth
                             /\ y s - minY + height s <= canvasHeight)
                          screens layers)
       /\ (forall totalWidth totalHeight layers,
             In (EvSharpCompositePng totalWidth totalHeight layers)
                (log (snd (captureAllScreens P (start P w)))) ->
             totalWidth = Num canvasWidth /\ totalHeight = Num canvasHeight
             /\ fst (mapM P (captureSingleScreen P) screens st1)
                = Return (map input layers)
             /\ Forall2 (fun s c =>
                           left c = Num (x s - minX) /\ top c = Num (y s - minY)
                           /\ 0 <= x s - minX /\ 0 <= y s - minY
                           /\ x s - minX + width s <= canvasWidth
                           /\ y s - minY + height s <= canvasHeight)
                        screens layers)
       /\ (forall buf,
             fst (captureAllScreens P (start P w)) = Return buf ->
             exists layers,
               In (EvSharpCompositePng (Num canvasWidth) (Num canvasHeight) layers)
                  (log (snd (captureAllScreens P (start P w))))).
Proof.
  intros P w screens st1.
  split; [reflexivity|]. split; [simpl; lia|].
  apply (layers_placed_within_canvas P w screens st1); [reflexivity | simpl; lia].
Defined.

(** On the two monitors of scenario 2 the captures return, so the request is
    the composite on 4480 x 1440 with the layers at (0,0) and (1920,0). *)
Example two_monitors_composite :
  let P := Sim.platform in
  fst (mapM P (captureSingleScreen P) [Sim.left_monitor; Sim.main_monitor]
         (snd (getScreenLayout P (start P Sim.two_monitors))))
  = Return [Sim.mkPicture Sim.PNG 1920 1080; Sim.mkPicture Sim.PNG 2560 1440]
  /\ fst (captureAllScreens P (start P Sim.two_monitors))
     = match sharp_composite_png P (Num 4480) (Num 1440)
               [(Sim.mkPicture Sim.PNG 1920 1080, Num 0, Num 0);
                (Sim.mkPicture Sim.PNG 2560 1440, Num 1920, Num 0)] with
       | Ok composite => Return composite
       | Err e => Throw e
       end.
Proof. split; reflexivity. Qed.

Lemma reencodes_only_when_downscaling_witness :
  let P := Sim.platform in
  let small := Sim.mkPicture Sim.PNG 800 600 in
  let wide := Sim.mkPicture Sim.PNG 3840 2160 in
  let st := start P Sim.one_monitor in
  sharp_metadata P small = Ok (mkMetadata (Some 800))
  /\ sharp_metadata P wide = Ok (mkMetadata (Some 3840))
  /\ resizeImage P small 2560 st
     = (Return small,
        mkState (world st) (clock st) (@EvSharpMetadata P small :: log st))
  /\ resizeImage P wide 2560 st
     = (match sharp_resize_png P wide 2560 with
        | Ok out => Return out
        | Err e => Throw e
        end,
        mkState (world st) (clock st)
          (@EvSharpResizePng P wide 2560 :: @EvSharpMetadata P wide :: log st)).
Proof.
  intros P small wide st.
  split; [reflexivity|]. split; [reflexivity|]. split.
  - apply (proj1 (proj2 (reencodes_only_when_downscaling P small 2560 st
                           (mkMetadata (Some 800)) eq_refl)) 800);
      [reflexivity | right; lia].
  - apply (proj1 (reencodes_only_when_downscaling P wide 2560 st
                    (mkMetadata (Some 3840)) eq_refl) 3840);
      [reflexivity | lia | lia].
Defined.



